(** * ChatFlow backend: the flow execution engine of [backend/main.py]

    A shallow embedding of the webhook handler, the node executor, the
    chat-history query and the flow create/update endpoints, and the
    properties of the engine proved over it.

    Conventions of the embedding.
    - JSON documents are typed records.  A field a document may lack is an
      [option]; [None] is what [dict.get] answers for it.
    - The document store is modelled through the operations the code calls
      on it: [insert_one] appends a document under a fresh id, [find_one]
      answers the first matching document in insertion order, [update_one]
      rewrites the first matching document, [update_many] all of them,
      [sort] orders a cursor and [limit] cuts it at the given count.
    - Ids are compared as the [ObjectId] they denote.  The string form the
      [PyObjectId] validator gives an id, and what the driver makes of a
      string where a document holds an [ObjectId], are outside the
      embedding.
    - Python exceptions are values: a computation either returns or raises,
      and the store keeps whatever was written before a raise.
    - The delivery and AI collaborators are parameters of the engine; the
      mocks of the source are one instance. *)

From stdpp Require Import base option list strings gmap.
From Stdlib Require Import Ascii String NArith Lia Sorting.Sorted Permutation.

Local Open Scope string_scope.
Local Open Scope list_scope.

(** ** Flow documents *)

Module Edge.
Record t := mk { source : option string; target : option string }.
End Edge.

Module NodeData.
Record t := mk { message : option string; prompt : option string }.
End NodeData.

Module Node.
(** [other_keys] names the keys a node document carries besides [id],
    [type] and [data] (the editor's [position], for instance): they only
    matter to the truth value of the dictionary. *)
Record t := mk {
  id : option string;
  type : option string;
  data : option NodeData.t;
  other_keys : list string
}.
End Node.

Module FlowData.
(** [flow_data.get('nodes', [])] and [flow_data.get('edges', [])]. *)
Record t := mk { nodes : list Node.t; edges : list Edge.t }.
End FlowData.

#[global] Instance edge_eq_dec : EqDecision Edge.t.
Proof. solve_decision. Defined.
#[global] Instance node_data_eq_dec : EqDecision NodeData.t.
Proof. solve_decision. Defined.
#[global] Instance node_eq_dec : EqDecision Node.t.
Proof. solve_decision. Defined.

(** ** Python truth values *)

(** [bool(s)] for an optional string: [None] and [''] are false. *)
Definition truthy_str (o : option string) : bool :=
  match o with
  | Some s => negb (String.eqb s "")
  | None => false
  end.

(** [bool(d)] for a node dictionary: false exactly for [{}]. *)
Definition truthy_node (n : Node.t) : bool :=
  bool_decide (is_Some (Node.id n)) || bool_decide (is_Some (Node.type n))
  || bool_decide (is_Some (Node.data n)) || negb (bool_decide (Node.other_keys n = [])).

(** [bool(x)] for [x] a node dictionary or [None]. *)
Definition truthy_opt_node (o : option Node.t) : bool :=
  match o with
  | Some n => truthy_node n
  | None => false
  end.

(** ** The graph walk of [execute_flow_node] *)

(** The [for edge in edges: if edge.get('source') == node_id: ...; break]
    loop, started from [next_node_id = None]. *)
Fixpoint next_node_id (node_id : option string) (edges : list Edge.t) : option string :=
  match edges with
  | [] => None
  | edge :: rest =>
      if bool_decide (Edge.source edge = node_id) then Edge.target edge
      else next_node_id node_id rest
  end.

(** ** Entry-node resolution of [handle_whatsapp_webhook] *)

(** [next((n for n in nodes if p(n)), None)]. *)
Fixpoint next_or_none (p : Node.t -> bool) (nodes : list Node.t) : option Node.t :=
  match nodes with
  | [] => None
  | n :: rest => if p n then Some n else next_or_none p rest
  end.

(** [{edge.get('target') for edge in flow_data.get('edges', [])}]. *)
Definition target_nodes (fd : FlowData.t) : gset (option string) :=
  list_to_set (map Edge.target (FlowData.edges fd)).

(** Lines 414-432: the node to execute, or [None] for the
    "No trigger node found." answer. *)
Definition resolve_entry_node (current_node_id : option string) (fd : FlowData.t)
  : option Node.t :=
  let nodes := FlowData.nodes fd in
  let current_node :=
    if truthy_str current_node_id
    then next_or_none (fun n => bool_decide (Node.id n = current_node_id)) nodes
    else None in
  if negb (truthy_opt_node current_node) then
    let trigger_node :=
      next_or_none (fun n => bool_decide (Node.id n ∉ target_nodes fd)) nodes in
    if negb (truthy_opt_node trigger_node) then None else trigger_node
  else current_node.

(** ** Stored documents and request models *)

(** An [ObjectId], as the number it encodes. *)
Definition ObjectId := N.
Bind Scope N_scope with ObjectId.

Module Contact.
Record t := mk {
  id : ObjectId;
  name : string;
  phone_number : string;
  tags : list string;
  current_flow_node_id : option string;
  last_active : nat
}.

(** The [$set] of [execute_flow_node]. *)
Definition set_state (next_node_id : option string) (now : nat) (c : t) : t :=
  mk (id c) (name c) (phone_number c) (tags c) next_node_id now.
End Contact.

Module MessageLog.
Record t := mk {
  id : ObjectId;
  contact_id : ObjectId;
  from_number : string;
  direction : string;
  text : string;
  timestamp : nat
}.
End MessageLog.

Module Flow.
(** A stored flow.  [update_flow] can [$set] any of the three fields to
    null, hence the options. *)
Record t := mk {
  id : ObjectId;
  name : option string;
  flow_data : option FlowData.t;
  is_active : option bool
}.

Definition set_is_active (b : option bool) (f : t) : t :=
  mk (id f) (name f) (flow_data f) b.
End Flow.

Module ChatbotFlowCreate.
Record t := mk { name : string; flow_data : FlowData.t; is_active : bool }.
End ChatbotFlowCreate.

Module ChatbotFlowUpdate.
(** The outer option is "the request sets this field"
    ([model_dump(exclude_unset=True)]); the inner one is the value, which
    may be null. *)
Record t := mk {
  name : option (option string);
  flow_data : option (option FlowData.t);
  is_active : option (option bool)
}.
End ChatbotFlowUpdate.

Module WebhookMessage.
Record t := mk { from_number : string; text : string }.
End WebhookMessage.

Module WebhookPayload.
Record t := mk { messages : list WebhookMessage.t }.
End WebhookPayload.

Module ChatMessage.
Record t := mk { role : string; content : string }.
End ChatMessage.

Module Response.
(** The dictionaries the webhook answers with. *)
Record t := mk {
  status : string;
  message : option string;
  message_processed : option bool
}.
End Response.

(** ** The world: store, clock and collaborator traffic *)

Record World := mkWorld {
  contacts : list Contact.t;
  message_logs : list MessageLog.t;
  flows : list Flow.t;
  (** what the next [datetime.utcnow()] answers *)
  clock : nat;
  (** the [(phone_number, text)] pairs handed to the delivery service *)
  delivery_calls : list (string * string)
}.

(** The external services.  [delivery phone text = false] and
    [completion prompt history = None] stand for a call that raises. *)
Record Env := mkEnv {
  delivery : string -> string -> bool;
  completion : string -> list ChatMessage.t -> option string
}.

Inductive exn :=
  | IndexError
  | TypeError
  | AttributeError
  | ValidationError
  | HTTPException (status_code : nat) (detail : string)
  | DeliveryError
  | CompletionError.

Inductive outcome (A : Type) :=
  | Returns (a : A)
  | Raises (e : exn).
Arguments Returns {A} a.
Arguments Raises {A} e.

(** A coroutine of the backend: it runs on a world and returns or raises,
    leaving the world as it was at that point. *)
Definition M (A : Type) : Type := World -> outcome A * World.

Definition ret {A} (a : A) : M A := fun w => (Returns a, w).
Definition raise {A} (e : exn) : M A := fun w => (Raises e, w).
Definition bind {A B} (m : M A) (k : A -> M B) : M B :=
  fun w =>
    match m w with
    | (Returns a, w') => k a w'
    | (Raises e, w') => (Raises e, w')
    end.

Declare Scope py_scope.
Delimit Scope py_scope with py.
Notation "x <- m ;; k" := (bind m (fun x => k))
  (at level 100, m at next level, right associativity) : py_scope.
Notation "m ;;; k" := (bind m (fun _ => k))
  (at level 100, right associativity) : py_scope.
Local Open Scope py_scope.

(** [datetime.datetime.utcnow()]: reads the clock, which then moves on. *)
Definition utcnow : M nat :=
  fun w => (Returns (clock w),
            mkWorld (contacts w) (message_logs w) (flows w) (S (clock w)) (delivery_calls w)).

(** *** Collection primitives *)

Definition find_one {A} (p : A -> bool) (docs : list A) : option A := List.find p docs.

Fixpoint update_one {A} (p : A -> bool) (f : A -> A) (docs : list A) : list A :=
  match docs with
  | [] => []
  | d :: rest => if p d then f d :: rest else d :: update_one p f rest
  end.

Definition update_many {A} (p : A -> bool) (f : A -> A) (docs : list A) : list A :=
  map (fun d => if p d then f d else d) docs.

(** The id [insert_one] assigns: one no stored document has. *)
Definition fresh_id (ids : list ObjectId) : ObjectId :=
  N.succ (foldr N.max 0%N ids).

Definition with_contacts (cs : list Contact.t) (w : World) : World :=
  mkWorld cs (message_logs w) (flows w) (clock w) (delivery_calls w).
Definition with_message_logs (ls : list MessageLog.t) (w : World) : World :=
  mkWorld (contacts w) ls (flows w) (clock w) (delivery_calls w).
Definition with_flows (fs : list Flow.t) (w : World) : World :=
  mkWorld (contacts w) (message_logs w) fs (clock w) (delivery_calls w).
Definition with_delivery_calls (ds : list (string * string)) (w : World) : World :=
  mkWorld (contacts w) (message_logs w) (flows w) (clock w) ds.

(** ** Model validation *)

Definition is_digit (c : ascii) : bool :=
  ((48 <=? nat_of_ascii c) && (nat_of_ascii c <=? 57))%nat.

Definition is_digit_1_9 (c : ascii) : bool :=
  ((49 <=? nat_of_ascii c) && (nat_of_ascii c <=? 57))%nat.

(** [pattern=r"^\+?[1-9]\d{1,14}$"] of [Contact.phone_number], on ASCII
    text. *)
Definition phone_number_pattern (s : string) : bool :=
  let s' := match s with String "+"%char rest => rest | _ => s end in
  match s' with
  | String c rest =>
      is_digit_1_9 c && forallb is_digit (list_ascii_of_string rest)
      && (1 <=? String.length rest)%nat && (String.length rest <=? 14)%nat
  | EmptyString => false
  end.

(** The [ContactInDB] model built from what [find_one] answered: [name] has
    [min_length=1], [phone_number] has the pattern. *)
Definition ContactInDB (doc : option Contact.t) : M Contact.t :=
  match doc with
  | None => raise TypeError
  | Some c =>
      if negb (String.eqb (Contact.name c) "") && phone_number_pattern (Contact.phone_number c)
      then ret c
      else raise ValidationError
  end.

(** The [ChatbotFlowInDB] model built from a document: [name] is a [str],
    [flow_data] a [dict] and
    [is_active] a [bool]; none may be null. *)
Definition ChatbotFlowInDB (doc : option Flow.t) : M Flow.t :=
  match doc with
  | None => raise TypeError
  | Some f =>
      if bool_decide (is_Some (Flow.name f)) && bool_decide (is_Some (Flow.flow_data f))
         && bool_decide (is_Some (Flow.is_active f))
      then ret f
      else raise ValidationError
  end.

(** ** Utility functions *)

(** [log_message]: a [MessageLog] stamped by its [default_factory] and
    inserted into [message_logs]. *)
Definition log_message (contact_id : ObjectId) (from_number direction text : string)
  : M unit :=
  now <- utcnow ;;
  fun w =>
    let log := MessageLog.mk (fresh_id (map MessageLog.id (message_logs w)))
                 contact_id from_number direction text now in
    (Returns tt, with_message_logs (message_logs w ++ [log]) w).

(** [send_whatsapp_reply]: the call reaches the delivery service, which
    answers or raises. *)
Definition send_whatsapp_reply (env : Env) (phone_number text : string) : M unit :=
  fun w =>
    let w' := with_delivery_calls (delivery_calls w ++ [(phone_number, text)]) w in
    if delivery env phone_number text then (Returns tt, w') else (Raises DeliveryError, w').

(** [get_openai_response]. *)
Definition get_openai_response (env : Env) (prompt : string) (history : list ChatMessage.t)
  : M string :=
  match completion env prompt history with
  | Some reply => ret reply
  | None => raise CompletionError
  end.

(** The two services as [main.py] mocks them: delivery always answers, the
    completion echoes the prompt ([prompt or '...']). *)
Definition mock_env : Env :=
  mkEnv (fun _ _ => true)
        (fun prompt _ =>
           Some ("This is a mocked AI response to your prompt: '"
                 +:+ (if String.eqb prompt "" then "..." else prompt) +:+ "'")).

(** [.sort("timestamp", -1)]: newest first; entries with equal stamps keep
    their insertion order. *)
Fixpoint insert_desc (x : MessageLog.t) (l : list MessageLog.t) : list MessageLog.t :=
  match l with
  | [] => [x]
  | y :: rest =>
      if (MessageLog.timestamp x <? MessageLog.timestamp y)%nat
      then y :: insert_desc x rest
      else x :: y :: rest
  end.

Definition sort_timestamp_desc (l : list MessageLog.t) : list MessageLog.t :=
  foldr insert_desc [] l.

(** The body of the [async for log in cursor] loop. *)
Definition history_entry (log : MessageLog.t) : ChatMessage.t :=
  let role := if String.eqb (MessageLog.direction log) "inbound" then "user" else "assistant" in
  ChatMessage.mk role (MessageLog.text log).

(** [get_chat_history]. *)
Definition get_chat_history (contact_id : ObjectId) (limit : nat) : M (list ChatMessage.t) :=
  fun w =>
    let cursor :=
      take limit
        (sort_timestamp_desc
           (List.filter (fun log => N.eqb (MessageLog.contact_id log) contact_id)
              (message_logs w))) in
    let history := fold_left (fun history log => history ++ [history_entry log]) cursor [] in
    (Returns (rev history), w).

(** [db.contacts.update_one({"_id": id}, {"$set": {...}})]. *)
Definition update_contact_state (id : ObjectId) (next : option string) : M unit :=
  now <- utcnow ;;
  fun w =>
    (Returns tt,
     with_contacts
       (update_one (fun c => N.eqb (Contact.id c) id) (Contact.set_state next now) (contacts w))
       w).

(** ** The node executor *)

Definition execute_flow_node (env : Env) (contact : Contact.t) (node : Node.t)
    (flow_data : FlowData.t) : M unit :=
  let node_type := Node.type node in
  let node_id := Node.id node in
  reply_text <-
    (if bool_decide (node_type = Some "textMessage") then
       ret (match Node.data node with
            | Some d => NodeData.message d
            | None => None
            end)
     else if bool_decide (node_type = Some "aiResponse") then
       history <- get_chat_history (Contact.id contact) 10 ;;
       let prompt := match Node.data node with
                     | Some d => default "" (NodeData.prompt d)
                     | None => ""
                     end in
       reply <- get_openai_response env prompt history ;;
       ret (Some reply)
     else ret None) ;;
  (if truthy_str reply_text then
     let text := default "" reply_text in
     send_whatsapp_reply env (Contact.phone_number contact) text ;;;
     log_message (Contact.id contact) (Contact.phone_number contact) "outbound" text
   else ret tt) ;;;
  let next := next_node_id node_id (FlowData.edges flow_data) in
  update_contact_state (Contact.id contact) next.

(** ** The webhook handler *)

Definition no_active_flow : Response.t :=
  Response.mk "ok" (Some "No active flow.") None.
Definition no_trigger_node : Response.t :=
  Response.mk "ok" (Some "No trigger node found.") None.
Definition message_processed : Response.t :=
  Response.mk "ok" None (Some true).

(** [db.contacts.insert_one(new_contact_data)], answering the inserted id. *)
Definition insert_contact (name phone_number : string) (tags : list string) : M ObjectId :=
  now <- utcnow ;;
  fun w =>
    let id := fresh_id (map Contact.id (contacts w)) in
    (Returns id,
     with_contacts (contacts w ++ [Contact.mk id name phone_number tags None now]) w).

Definition find_contact (p : Contact.t -> bool) : M (option Contact.t) :=
  fun w => (Returns (find_one p (contacts w)), w).

Definition find_flow (p : Flow.t -> bool) : M (option Flow.t) :=
  fun w => (Returns (find_one p (flows w)), w).

Definition is_active_flow (f : Flow.t) : bool :=
  bool_decide (Flow.is_active f = Some true).

Definition handle_whatsapp_webhook (env : Env) (payload : WebhookPayload.t) : M Response.t :=
  message <- match WebhookPayload.messages payload with
             | m :: _ => ret m
             | [] => raise IndexError
             end ;;
  let from_number := WebhookMessage.from_number message in
  let text := WebhookMessage.text message in
  found <- find_contact (fun c => String.eqb (Contact.phone_number c) from_number) ;;
  doc <- match found with
         | Some c => ret (Some c)
         | None =>
             inserted_id <- insert_contact ("WA " +:+ from_number) from_number ["new_lead"] ;;
             find_contact (fun c => N.eqb (Contact.id c) inserted_id)
         end ;;
  contact <- ContactInDB doc ;;
  log_message (Contact.id contact) from_number "inbound" text ;;;
  active_flow <- find_flow is_active_flow ;;
  match active_flow with
  | None => ret no_active_flow
  | Some flow =>
      match Flow.flow_data flow with
      | None => raise AttributeError
      | Some flow_data =>
          match resolve_entry_node (Contact.current_flow_node_id contact) flow_data with
          | None => ret no_trigger_node
          | Some current_node =>
              execute_flow_node env contact current_node flow_data ;;;
              ret message_processed
          end
      end
  end.

(** ** The flow endpoints *)

Definition hex_digit (c : ascii) : option N :=
  let n := N_of_ascii c in
  if ((48 <=? n) && (n <=? 57))%N then Some (n - 48)%N
  else if ((97 <=? n) && (n <=? 102))%N then Some (n - 87)%N
  else if ((65 <=? n) && (n <=? 70))%N then Some (n - 55)%N
  else None.

Fixpoint hex_value (s : string) (acc : N) : option N :=
  match s with
  | EmptyString => Some acc
  | String c rest =>
      match hex_digit c with
      | Some d => hex_value rest (16 * acc + d)%N
      | None => None
      end
  end.

(** [ObjectId(id)] for a request's [id: str]; [None] where
    [ObjectId.is_valid(id)] is false: the string is not 24 hex digits. *)
Definition parse_ObjectId (id : string) : option ObjectId :=
  if (String.length id =? 24)%nat then hex_value id 0%N else None.

Definition update_many_flows (p : Flow.t -> bool) (f : Flow.t -> Flow.t) : M unit :=
  fun w => (Returns tt, with_flows (update_many p f (flows w)) w).

(** [db.flows.insert_one(flow_dict)], answering the inserted id. *)
Definition insert_flow (flow : ChatbotFlowCreate.t) : M ObjectId :=
  fun w =>
    let id := fresh_id (map Flow.id (flows w)) in
    let doc := Flow.mk id (Some (ChatbotFlowCreate.name flow))
                 (Some (ChatbotFlowCreate.flow_data flow))
                 (Some (ChatbotFlowCreate.is_active flow)) in
    (Returns id, with_flows (flows w ++ [doc]) w).

Definition create_flow (flow : ChatbotFlowCreate.t) : M Flow.t :=
  (if ChatbotFlowCreate.is_active flow
   then update_many_flows is_active_flow (Flow.set_is_active (Some false))
   else ret tt) ;;;
  inserted_id <- insert_flow flow ;;
  created_flow <- find_flow (fun f => N.eqb (Flow.id f) inserted_id) ;;
  ChatbotFlowInDB created_flow.

(** [not update_data]: the request set no field. *)
Definition update_data_empty (u : ChatbotFlowUpdate.t) : bool :=
  bool_decide (ChatbotFlowUpdate.name u = None)
  && bool_decide (ChatbotFlowUpdate.flow_data u = None)
  && bool_decide (ChatbotFlowUpdate.is_active u = None).

(** [{"$set": update_data}] on one document. *)
Definition set_update_data (u : ChatbotFlowUpdate.t) (f : Flow.t) : Flow.t :=
  Flow.mk (Flow.id f)
    (default (Flow.name f) (ChatbotFlowUpdate.name u))
    (default (Flow.flow_data f) (ChatbotFlowUpdate.flow_data u))
    (default (Flow.is_active f) (ChatbotFlowUpdate.is_active u)).

(** [db.flows.update_one({"_id": oid}, {"$set": update_data})], answering
    [matched_count]. *)
Definition update_one_flow (oid : ObjectId) (u : ChatbotFlowUpdate.t) : M nat :=
  fun w =>
    let p := fun f => N.eqb (Flow.id f) oid in
    (Returns (match find_one p (flows w) with Some _ => 1 | None => 0 end),
     with_flows (update_one p (set_update_data u) (flows w)) w).

Definition update_flow (id : string) (flow_update : ChatbotFlowUpdate.t) : M Flow.t :=
  match parse_ObjectId id with
  | None => raise (HTTPException 400 "Invalid flow ID")
  | Some oid =>
      if update_data_empty flow_update
      then raise (HTTPException 400 "No update data provided.")
      else
        (if bool_decide (ChatbotFlowUpdate.is_active flow_update = Some (Some true))
         then update_many_flows
                (fun f => negb (N.eqb (Flow.id f) oid) && is_active_flow f)
                (Flow.set_is_active (Some false))
         else ret tt) ;;;
        matched_count <- update_one_flow oid flow_update ;;
        if (matched_count =? 0)%nat then raise (HTTPException 404 "Flow not found")
        else
          updated_flow <- find_flow (fun f => N.eqb (Flow.id f) oid) ;;
          ChatbotFlowInDB updated_flow
  end.

(** ** The remaining endpoints *)

Module ContactCreate.
Record t := mk { name : string; phone_number : string; tags : list string }.
End ContactCreate.

(** [create_contact].  The request model has let through any
    [phone_number]; its [name] is non-empty. *)
Definition create_contact (contact : ContactCreate.t) : M Contact.t :=
  existing_contact <-
    find_contact (fun c => String.eqb (Contact.phone_number c)
                             (ContactCreate.phone_number contact)) ;;
  match existing_contact with
  | Some _ =>
      raise (HTTPException 400 "Contact with this phone number already exists.")
  | None =>
      inserted_id <- insert_contact (ContactCreate.name contact)
                       (ContactCreate.phone_number contact) (ContactCreate.tags contact) ;;
      created_contact <- find_contact (fun c => N.eqb (Contact.id c) inserted_id) ;;
      match created_contact with
      | None => raise (HTTPException 500 "Failed to create and retrieve contact.")
      | Some c => ContactInDB (Some c)
      end
  end.



(** The same loop of [get_all_flows]. *)
Fixpoint validate_flows (cursor : list Flow.t) (flows : list Flow.t) : M (list Flow.t) :=
  match cursor with
  | [] => ret flows
  | doc :: rest =>
      f <- ChatbotFlowInDB (Some doc) ;;
      validate_flows rest (flows ++ [f])
  end.

Definition get_all_flows : M (list Flow.t) :=
  fun w => validate_flows (flows w) [] w.

Definition get_flow (id : string) : M Flow.t :=
  match parse_ObjectId id with
  | None => raise (HTTPException 400 "Invalid flow ID")
  | Some oid =>
      flow <- find_flow (fun f => N.eqb (Flow.id f) oid) ;;
      match flow with
      | None => raise (HTTPException 404 "Flow not found")
      | Some f => ChatbotFlowInDB (Some f)
      end
  end.

(** [delete_one]: the first matching document goes. *)
Fixpoint delete_one {A} (p : A -> bool) (docs : list A) : list A :=
  match docs with
  | [] => []
  | d :: rest => if p d then rest else d :: delete_one p rest
  end.

(** [db.flows.delete_one({"_id": oid})], answering [deleted_count]. *)
Definition delete_one_flow (oid : ObjectId) : M nat :=
  fun w =>
    let p := fun f => N.eqb (Flow.id f) oid in
    (Returns (match find_one p (flows w) with Some _ => 1 | None => 0 end),
     with_flows (delete_one p (flows w)) w).

Definition delete_flow (id : string) : M unit :=
  match parse_ObjectId id with
  | None => raise (HTTPException 400 "Invalid flow ID")
  | Some oid =>
      deleted_count <- delete_one_flow oid ;;
      if (deleted_count =? 0)%nat then raise (HTTPException 404 "Flow not found")
      else ret tt
  end.

(** [try: body except Exception: handler]. *)
Definition try_except {A} (body : M A) (handler : exn -> M A) : M A :=
  fun w =>
    match body w with
    | (Returns a, w') => (Returns a, w')
    | (Raises e, w') => handler e w'
    end.

(** [{"tags": {"$in": tags}}]: some tag of the contact is among [tags]. *)
Definition tags_in (tags : list string) (c : Contact.t) : bool :=
  existsb (fun t => bool_decide (t ∈ tags)) (Contact.tags c).

(** The [async for contact in contacts_cursor] loop of
    [run_broadcast_task], carrying [total_sent]. *)
Fixpoint broadcast_loop (env : Env) (message : string) (cursor : list Contact.t)
    (total_sent : nat) : M nat :=
  match cursor with
  | [] => ret total_sent
  | contact :: rest =>
      total_sent <-
        try_except
          (send_whatsapp_reply env (Contact.phone_number contact) message ;;;
           log_message (Contact.id contact) (Contact.phone_number contact) "outbound"
             ("[BROADCAST] " +:+ message) ;;;
           ret (S total_sent))
          (fun _ => ret total_sent) ;;
      broadcast_loop env message rest total_sent
  end.

(** [run_broadcast_task], answering the [total_sent] of its last log line. *)
Definition run_broadcast_task (env : Env) (message : string) (tags : list string) : M nat :=
  fun w =>
    let cursor :=
      match tags with
      | [] => contacts w
      | _ :: _ => List.filter (tags_in tags) (contacts w)
      end in
    broadcast_loop env message cursor 0 w.

(** What [ContactInDB] asks of a stored contact. *)
Definition valid_contact (c : Contact.t) : bool :=
  negb (String.eqb (Contact.name c) "") && phone_number_pattern (Contact.phone_number c).

(** What [ChatbotFlowInDB] asks of a stored flow. *)
Definition valid_flow (f : Flow.t) : bool :=
  bool_decide (is_Some (Flow.name f)) && bool_decide (is_Some (Flow.flow_data f))
  && bool_decide (is_Some (Flow.is_active f)).

(** A log entry of a broadcast of [message]. *)
Definition broadcast_entry (message : string) (log : MessageLog.t) : Prop :=
  MessageLog.direction log = "outbound"
  /\ MessageLog.text log = "[BROADCAST] " +:+ message.

(** ** Vocabulary of the statements *)

(** [x] is the first element of [l], in order, that satisfies [P]. *)
Definition first_such {A} (P : A -> Prop) (l : list A) (x : A) : Prop :=
  exists pre post, l = pre ++ x :: post /\ P x /\ Forall (fun y => ~ P y) pre.

(** No edge of the graph points at [n]. *)
Definition no_incoming_edge (fd : FlowData.t) (n : Node.t) : Prop :=
  forall e, In e (FlowData.edges fd) -> Edge.target e <> Node.id n.

(** The empty node document, [{}]. *)
Definition empty_node : Node.t := Node.mk None None None [].

(** The graph queries of the specification, section 4.1. *)
Definition findNode (id : string) (fd : FlowData.t) : option Node.t :=
  List.find (fun n => bool_decide (Node.id n = Some id)) (FlowData.nodes fd).

Definition firstOutgoingEdge (source_id : option string) (fd : FlowData.t) : option Edge.t :=
  List.find (fun e => bool_decide (Edge.source e = source_id)) (FlowData.edges fd).

Definition targetIds (fd : FlowData.t) : list (option string) :=
  map Edge.target (FlowData.edges fd).

(** Resolution as section 4.3 words it: the saved position when it is
    non-null and found, the trigger node otherwise. *)
Definition resolve_as_specified (current_node_id : option string) (fd : FlowData.t)
  : option Node.t :=
  let trigger :=
    List.find (fun n => negb (bool_decide (Node.id n ∈ targetIds fd))) (FlowData.nodes fd) in
  match current_node_id with
  | Some id => match findNode id fd with
               | Some n => Some n
               | None => trigger
               end
  | None => trigger
  end.

(** The handler from its [log_message] call on, for a loaded [contact]. *)
Definition handle_loaded_contact (env : Env) (message : WebhookMessage.t)
    (contact : Contact.t) : M Response.t :=
  log_message (Contact.id contact) (WebhookMessage.from_number message) "inbound"
    (WebhookMessage.text message) ;;;
  active_flow <- find_flow is_active_flow ;;
  match active_flow with
  | None => ret no_active_flow
  | Some flow =>
      match Flow.flow_data flow with
      | None => raise AttributeError
      | Some flow_data =>
          match resolve_entry_node (Contact.current_flow_node_id contact) flow_data with
          | None => ret no_trigger_node
          | Some current_node =>
              execute_flow_node env contact current_node flow_data ;;;
              ret message_processed
          end
      end
  end.

(** The contact the handler creates for an unknown sender. *)
Definition new_lead (w : World) (from_number : string) : Contact.t :=
  Contact.mk (fresh_id (map Contact.id (contacts w))) ("WA " +:+ from_number) from_number
    ["new_lead"] None (clock w).

(** The store once the inbound message of [contact] is logged. *)
Definition inbound_logged (contact : Contact.t) (message : WebhookMessage.t) (w : World)
  : World :=
  mkWorld (contacts w)
    (message_logs w ++
     [MessageLog.mk (fresh_id (map MessageLog.id (message_logs w))) (Contact.id contact)
        (WebhookMessage.from_number message) "inbound" (WebhookMessage.text message)
        (clock w)])
    (flows w) (S (clock w)) (delivery_calls w).

(** The store once an unknown sender has been given a contact. *)
Definition onboarded (w : World) (from_number : string) : World :=
  mkWorld (contacts w ++ [new_lead w from_number]) (message_logs w) (flows w) (S (clock w))
    (delivery_calls w).

(** The contact [c] the handler works with for a sender, and the store
    [w0] it works on: the stored contact of that number in the store as it
    is, or else a new lead in the store that received it. *)
Definition sender_settled (w : World) (from_number : string) (c : Contact.t) (w0 : World)
  : Prop :=
  (find_one (fun c => String.eqb (Contact.phone_number c) from_number) (contacts w) = Some c
   /\ w0 = w)
  \/ (find_one (fun c => String.eqb (Contact.phone_number c) from_number) (contacts w) = None
      /\ c = new_lead w from_number
      /\ w0 = onboarded w from_number).

(** The position the sender had before the event: none for an unknown one. *)
Definition saved_position (w : World) (from_number : string) : option string :=
  match find_one (fun c => String.eqb (Contact.phone_number c) from_number) (contacts w) with
  | Some c => Contact.current_flow_node_id c
  | None => None
  end.

(** The log entry of a sender's inbound message. *)
Definition inbound_entry (msg : WebhookMessage.t) (log : MessageLog.t) : Prop :=
  MessageLog.direction log = "inbound"
  /\ MessageLog.from_number log = WebhookMessage.from_number msg
  /\ MessageLog.text log = WebhookMessage.text msg.

(** Newest first. *)
Definition newer_first (a b : MessageLog.t) : Prop :=
  MessageLog.timestamp b <= MessageLog.timestamp a.


(** At most one stored flow has [is_active = true]. *)
Definition at_most_one_active (fs : list Flow.t) : Prop :=
  List.length (List.filter is_active_flow fs) <= 1.

(** ** Example data *)

Module Ex.
Definition hi : Node.t :=
  Node.mk (Some "n1") (Some "textMessage") (Some (NodeData.mk (Some "Hi!") None)) [].
Definition ai : Node.t :=
  Node.mk (Some "n2") (Some "aiResponse") (Some (NodeData.mk None (Some "help"))) [].
Definition delay : Node.t :=
  Node.mk (Some "n3") (Some "delay") None ["position"].

(** [n1 --> n2], [n2] a dead end. *)
Definition chain : FlowData.t :=
  FlowData.mk [hi; ai] [Edge.mk (Some "n1") (Some "n2")].

Definition alice : Contact.t :=
  Contact.mk 1 "Alice" "+15551234567" [] (Some "n1") 7.
Definition bob : Contact.t :=
  Contact.mk 2 "Bob" "+15557654321" [] (Some "n2") 8.

Definition world : World :=
  mkWorld [alice; bob] [] [Flow.mk 1 (Some "welcome") (Some chain) (Some true)] 100 [].


Definition hello (from_number : string) : WebhookPayload.t :=
  WebhookPayload.mk [WebhookMessage.mk from_number "hello"].

(** Collaborators during an outage: delivery raises, or the completion
    raises. *)
Definition delivery_down : Env := mkEnv (fun _ _ => false) (completion mock_env).
Definition completion_down : Env := mkEnv (delivery mock_env) (fun _ _ => None).

(** Bob, saved at the dead end [n2], writes once: [n2] runs and his
    position is stored as null. *)
Definition after_dead_end : World :=
  snd (handle_whatsapp_webhook mock_env (hello "+15557654321") world).

(** And once more, the flows untouched. *)
Definition after_next_message : World :=
  snd (handle_whatsapp_webhook mock_env (hello "+15557654321") after_dead_end).
End Ex.

(** ** More example data *)

Module Demo.
(** [n1 --> n2 --> n1]: every node has an incoming edge. *)
Definition cycle : FlowData.t :=
  FlowData.mk [Ex.hi; Ex.ai] [Edge.mk (Some "n1") (Some "n2"); Edge.mk (Some "n2") (Some "n1")].

Definition carol : Contact.t :=
  Contact.mk 1 "Carol" "+15551234567" ["vip"] None 7.

Definition cycle_world : World :=
  mkWorld [carol] [] [Flow.mk 1 (Some "loop") (Some cycle) (Some true)] 100 [].



Definition flow_id : string := "000000000000000000000001".
End Demo.

(** * Properties *)

(** ** Lists and first matches *)

Lemma next_or_none_Some (p : Node.t -> bool) (nodes : list Node.t) (n : Node.t) :
  next_or_none p nodes = Some n <-> first_such (fun m => p m = true) nodes n.
Proof.
  split.
  - induction nodes as [|m rest IH]; simpl; [discriminate|].
    destruct (p m) eqn:Hm.
    + intros [= <-]. exists [], rest. auto.
    + intros H. destruct (IH H) as (pre & post & -> & Hn & Hpre).
      exists (m :: pre), post. repeat split; auto.
      constructor; [congruence | exact Hpre].
  - intros (pre & post & -> & Hn & Hpre).
    induction Hpre as [|m pre Hm _ IH]; simpl.
    + now rewrite Hn.
    + destruct (p m); [congruence | exact IH].
Qed.

Lemma next_or_none_None (p : Node.t -> bool) (nodes : list Node.t) :
  next_or_none p nodes = None <-> Forall (fun m => p m = false) nodes.
Proof.
  induction nodes as [|m rest IH]; simpl.
  - split; auto.
  - destruct (p m) eqn:Hm.
    + split; [discriminate | intros H; inversion H; congruence].
    + rewrite IH. split; [intros; constructor; auto | intros H; now inversion H].
Qed.

Lemma first_such_ext {A} (P Q : A -> Prop) (l : list A) (x : A) :
  (forall y, P y <-> Q y) -> first_such P l x -> first_such Q l x.
Proof.
  intros HPQ (pre & post & -> & Hx & Hpre).
  exists pre, post. repeat split; [now apply HPQ|].
  eapply Forall_impl; [exact Hpre|]. intros y Hy HQ. now apply Hy, HPQ.
Qed.

Lemma not_in_target_nodes (fd : FlowData.t) (n : Node.t) :
  Node.id n ∉ target_nodes fd <-> no_incoming_edge fd n.
Proof.
  unfold target_nodes, no_incoming_edge.
  rewrite elem_of_list_to_set, list_elem_of_In, in_map_iff.
  split.
  - intros H e He Heq. apply H. now exists e.
  - intros H (e & Heq & He). now apply (H e).
Qed.

Lemma truthy_node_false (n : Node.t) : truthy_node n = false <-> n = empty_node.
Proof.
  destruct n as [i t d k]. unfold truthy_node, empty_node. simpl.
  split.
  - intros H. repeat (apply orb_false_iff in H; destruct H as [H ?]).
    destruct i, t, d, k; simpl in *; try discriminate; try reflexivity;
      repeat case_bool_decide; try discriminate;
      exfalso; eauto using mk_is_Some.
  - intros [= -> -> -> ->]. reflexivity.
Qed.

(** ** The next node *)

Lemma next_node_id_find (node_id : option string) (edges : list Edge.t) :
  next_node_id node_id edges =
  match List.find (fun e => bool_decide (Edge.source e = node_id)) edges with
  | Some e => Edge.target e
  | None => None
  end.
Proof.
  induction edges as [|e rest IH]; simpl; [reflexivity|].
  now destruct (bool_decide (Edge.source e = node_id)).
Qed.

(** C7. The executor's next node id is the target of the first edge, in
    declaration order, whose source is the executed node's id, whatever
    edges with that source follow it, and it is null when no edge has that
    source. *)
Theorem next_node_id_first_outgoing (node : Node.t) (flow_data : FlowData.t) :
  let next := next_node_id (Node.id node) (FlowData.edges flow_data) in
  next = match firstOutgoingEdge (Node.id node) flow_data with
         | Some e => Edge.target e
         | None => None
         end
  /\ (forall e, first_such (fun e' => Edge.source e' = Node.id node)
                  (FlowData.edges flow_data) e ->
      next = Edge.target e)
  /\ (Forall (fun e => Edge.source e <> Node.id node) (FlowData.edges flow_data) ->
      next = None).
Proof.
  cbv zeta. split; [apply next_node_id_find|]. split.
  - intros e (pre & post & -> & He & Hpre).
    induction Hpre as [|e' pre He' _ IH]; simpl.
    + now rewrite bool_decide_eq_true_2.
    + now rewrite bool_decide_eq_false_2.
  - induction 1 as [|e rest He _ IH]; simpl; [reflexivity|].
    now rewrite bool_decide_eq_false_2.
Qed.

Lemma next_node_id_first_outgoing_witness :
  next_node_id (Some "a")
    [Edge.mk (Some "z") (Some "y"); Edge.mk (Some "a") (Some "b");
     Edge.mk (Some "a") (Some "c")]
  = Some "b".
Proof.
  apply (proj1 (proj2 (next_node_id_first_outgoing
           (Node.mk (Some "a") (Some "textMessage") None [])
           (FlowData.mk [] [Edge.mk (Some "z") (Some "y"); Edge.mk (Some "a") (Some "b");
                            Edge.mk (Some "a") (Some "c")])))
         (Edge.mk (Some "a") (Some "b"))).
  exists [Edge.mk (Some "z") (Some "y")], [Edge.mk (Some "a") (Some "c")].
  split; [reflexivity|]. split; [reflexivity|].
  constructor; [discriminate | constructor].
Defined.

(** ** Entry-node resolution *)

(** The two lookups of the resolver, as the statements name them. *)
Lemma saved_position_lookup (cur : option string) (nodes : list Node.t) (n : Node.t) :
  next_or_none (fun m => bool_decide (Node.id m = cur)) nodes = Some n <->
  first_such (fun m => Node.id m = cur) nodes n.
Proof.
  rewrite next_or_none_Some. split; apply first_such_ext; intros m;
    [|symmetry]; apply bool_decide_eq_true.
Qed.

Lemma trigger_lookup (fd : FlowData.t) (t : Node.t) :
  next_or_none (fun m => bool_decide (Node.id m ∉ target_nodes fd)) (FlowData.nodes fd) = Some t
  <-> first_such (no_incoming_edge fd) (FlowData.nodes fd) t.
Proof.
  rewrite next_or_none_Some. split; apply first_such_ext; intros m;
    rewrite bool_decide_eq_true; [|symmetry]; apply not_in_target_nodes.
Qed.

Lemma trigger_lookup_none (fd : FlowData.t) :
  next_or_none (fun m => bool_decide (Node.id m ∉ target_nodes fd)) (FlowData.nodes fd) = None
  <-> Forall (fun n => ~ no_incoming_edge fd n) (FlowData.nodes fd).
Proof.
  rewrite next_or_none_None. apply Forall_iff. intros m.
  rewrite bool_decide_eq_false, not_in_target_nodes. reflexivity.
Qed.

(** A node found under a true id is not the empty document, so the
    [if not current_node] test only asks whether the lookup found one. *)
Lemma resolve_entry_node_cases (cur : option string) (fd : FlowData.t) :
  resolve_entry_node cur fd =
  match (if truthy_str cur
         then next_or_none (fun n => bool_decide (Node.id n = cur)) (FlowData.nodes fd)
         else None) with
  | Some n => Some n
  | None =>
      match next_or_none (fun m => bool_decide (Node.id m ∉ target_nodes fd))
              (FlowData.nodes fd) with
      | Some t => if truthy_node t then Some t else None
      | None => None
      end
  end.
Proof.
  unfold resolve_entry_node. cbv zeta.
  set (found := next_or_none (fun n => bool_decide (Node.id n = cur)) (FlowData.nodes fd)).
  set (trig := next_or_none (fun n => bool_decide (Node.id n ∉ target_nodes fd))
                 (FlowData.nodes fd)).
  assert ((if negb (truthy_opt_node trig) then None else trig)
          = match trig with
            | Some t => if truthy_node t then Some t else None
            | None => None
            end) as Htrig.
  { destruct trig as [t|]; simpl; [|reflexivity]. now destruct (truthy_node t). }
  destruct (truthy_str cur) eqn:Hcur; [|exact Htrig].
  destruct found as [n|] eqn:Hn; [|exact Htrig].
  subst found. apply saved_position_lookup in Hn.
  destruct Hn as (_ & _ & _ & Hid & _).
  assert (truthy_node n = true) as Ht.
  { destruct cur as [s|]; [|discriminate].
    unfold truthy_node. rewrite Hid. reflexivity. }
  simpl. now rewrite Ht.
Qed.

(** A saved position that is not usable sends the resolver to its
    fallback lookup. *)
Lemma unusable_position_not_found (cur : option string) (nodes : list Node.t) :
  cur = None \/ cur = Some "" \/ Forall (fun n => Node.id n <> cur) nodes ->
  (if truthy_str cur
   then next_or_none (fun n => bool_decide (Node.id n = cur)) nodes
   else None) = None.
Proof.
  intros [-> | [-> | Hall]]; [reflexivity | reflexivity |].
  destruct (truthy_str cur); [|reflexivity].
  apply next_or_none_None. eapply Forall_impl; [exact Hall|].
  intros m Hm. now apply bool_decide_eq_false.
Qed.

Lemma resolve_entry_node_saved (cur : option string) (fd : FlowData.t) (id : string)
    (n : Node.t) :
  cur = Some id -> id <> "" ->
  first_such (fun m => Node.id m = Some id) (FlowData.nodes fd) n ->
  resolve_entry_node cur fd = Some n.
Proof.
  intros -> Hid Hn. rewrite resolve_entry_node_cases.
  assert (truthy_str (Some id) = true) as ->.
  { simpl. destruct (String.eqb_spec id ""); [contradiction | reflexivity]. }
  apply saved_position_lookup in Hn. now rewrite Hn.
Qed.

Lemma resolve_entry_node_fallback (cur : option string) (fd : FlowData.t) :
  cur = None \/ cur = Some "" \/ Forall (fun n => Node.id n <> cur) (FlowData.nodes fd) ->
  (forall t, first_such (no_incoming_edge fd) (FlowData.nodes fd) t ->
     resolve_entry_node cur fd = if truthy_node t then Some t else None)
  /\ (Forall (fun n => ~ no_incoming_edge fd n) (FlowData.nodes fd) ->
      resolve_entry_node cur fd = None).
Proof.
  intros Hun. rewrite resolve_entry_node_cases, (unusable_position_not_found _ _ Hun). split.
  - intros t Ht. apply trigger_lookup in Ht. now rewrite Ht.
  - intros Hall. apply trigger_lookup_none in Hall. now rewrite Hall.
Qed.

Lemma resolve_entry_node_none_inv (cur : option string) (fd : FlowData.t) :
  resolve_entry_node cur fd = None ->
  (cur = None \/ cur = Some "" \/ Forall (fun n => Node.id n <> cur) (FlowData.nodes fd))
  /\ (Forall (fun n => ~ no_incoming_edge fd n) (FlowData.nodes fd)
      \/ first_such (no_incoming_edge fd) (FlowData.nodes fd) empty_node).
Proof.
  intros Hres. rewrite resolve_entry_node_cases in Hres.
  assert (cur = None \/ cur = Some "" \/
          Forall (fun n => Node.id n <> cur) (FlowData.nodes fd)) as Hun.
  { destruct cur as [id|]; [|now left]. right.
    destruct (String.eqb_spec id "") as [->|Hne]; [now left|right].
    unfold truthy_str in Hres. rewrite (proj2 (String.eqb_neq id "") Hne) in Hres.
    simpl negb in Hres. cbv iota in Hres.
    destruct (next_or_none (fun n => bool_decide (Node.id n = Some id)) (FlowData.nodes fd))
      as [x|] eqn:Hx; [discriminate|].
    apply next_or_none_None in Hx. eapply Forall_impl; [exact Hx|].
    intros m Hm. now apply bool_decide_eq_false in Hm. }
  split; [exact Hun|]. rewrite (unusable_position_not_found _ _ Hun) in Hres.
  destruct (next_or_none (fun m => bool_decide (Node.id m ∉ target_nodes fd))
              (FlowData.nodes fd)) as [t|] eqn:Ht.
  - right. destruct (truthy_node t) eqn:Htr; [discriminate|].
    apply truthy_node_false in Htr. subst t. now apply trigger_lookup.
  - left. now apply trigger_lookup_none.
Qed.

(** C2, as the code has it.  The saved position is used when it is
    non-null, non-empty and names a node of the graph: the first such node
    is returned.  Otherwise (null or empty id, or no node with that id) the
    resolver takes the first node in declaration order that no edge points
    at, and returns it unless it is the empty document.  The answer is null
    exactly when the saved position is not usable and either every node has
    an incoming edge (in particular, there is no node) or the first node
    without one is the empty document. *)
Theorem resolve_entry_node_amended (cur : option string) (fd : FlowData.t) :
  let nodes := FlowData.nodes fd in
  let unusable :=
    cur = None \/ cur = Some "" \/ Forall (fun n => Node.id n <> cur) nodes in
  (forall id n, cur = Some id -> id <> "" ->
     first_such (fun m => Node.id m = Some id) nodes n ->
     resolve_entry_node cur fd = Some n)
  /\ (unusable ->
      (forall t, first_such (no_incoming_edge fd) nodes t ->
         resolve_entry_node cur fd = if truthy_node t then Some t else None)
      /\ (Forall (fun n => ~ no_incoming_edge fd n) nodes ->
          resolve_entry_node cur fd = None))
  /\ (resolve_entry_node cur fd = None <->
      unusable /\
      (Forall (fun n => ~ no_incoming_edge fd n) nodes
       \/ first_such (no_incoming_edge fd) nodes empty_node)).
Proof.
  cbv zeta. split; [|split; [|split]].
  - intros id n. apply resolve_entry_node_saved.
  - apply resolve_entry_node_fallback.
  - apply resolve_entry_node_none_inv.
  - intros [Hun [Hall | Hempty]].
    + now apply (resolve_entry_node_fallback cur fd Hun).
    + now rewrite (proj1 (resolve_entry_node_fallback cur fd Hun) _ Hempty).
Qed.

Lemma resolve_entry_node_amended_witness :
  resolve_entry_node (Some "n2")
    (FlowData.mk
       [Node.mk (Some "n1") (Some "textMessage") None [];
        Node.mk (Some "n2") (Some "aiResponse") None []]
       [Edge.mk (Some "n1") (Some "n2")])
  = Some (Node.mk (Some "n2") (Some "aiResponse") None []).
Proof.
  apply (proj1 (resolve_entry_node_amended (Some "n2") _) "n2");
    [reflexivity | discriminate |].
  exists [Node.mk (Some "n1") (Some "textMessage") None []], [].
  split; [reflexivity|]. split; [reflexivity|].
  constructor; [discriminate | constructor].
Defined.

(** C2 as the specification words it fails on the code: a saved position
    that is the empty string is treated as no position although a node
    carries that id, and a first entry node that is the empty document is
    reported as no trigger node although no edge points at it. *)
Lemma resolve_entry_node_counterexample :
  let a := Node.mk (Some "a") (Some "textMessage") None [] in
  let b := Node.mk (Some "") (Some "textMessage") None [] in
  let fd := FlowData.mk [a; b] [Edge.mk (Some "a") (Some "")] in
  (findNode "" fd = Some b
   /\ resolve_as_specified (Some "") fd = Some b
   /\ resolve_entry_node (Some "") fd = Some a
   /\ resolve_entry_node (Some "") fd <> resolve_as_specified (Some "") fd)
  /\ (no_incoming_edge (FlowData.mk [empty_node] []) empty_node
      /\ resolve_as_specified None (FlowData.mk [empty_node] []) = Some empty_node
      /\ resolve_entry_node None (FlowData.mk [empty_node] []) = None).
Proof.
  cbv zeta. split.
  - repeat split; try reflexivity. vm_compute. discriminate.
  - split; [intros e []|]. split; reflexivity.
Qed.

(** ** The store primitives *)

Lemma update_one_find_one {A} (p : A -> bool) (f : A -> A) (docs : list A) (d : A) :
  find_one p docs = Some d -> p (f d) = true ->
  find_one p (update_one p f docs) = Some (f d).
Proof.
  unfold find_one. intros Hfind Hpf.
  induction docs as [|x rest IH]; simpl in *; [discriminate|].
  destruct (p x) eqn:Hx; simpl.
  - injection Hfind as ->. now rewrite Hpf.
  - rewrite Hx. now apply IH.
Qed.

Lemma update_one_map {A B} (g : A -> B) (p : A -> bool) (f : A -> A) (docs : list A) :
  (forall d, g (f d) = g d) -> map g (update_one p f docs) = map g docs.
Proof.
  intros Hg. induction docs as [|x rest IH]; simpl; [reflexivity|].
  destruct (p x); simpl; [now rewrite Hg | now rewrite IH].
Qed.

Lemma fresh_id_fresh (ids : list ObjectId) : ~ In (fresh_id ids) ids.
Proof.
  assert (forall x, In x ids -> (x <= foldr N.max 0 ids)%N) as Hmax.
  { induction ids as [|y rest IH]; simpl; [contradiction|].
    intros x [->|Hx]; [lia|]. specialize (IH x Hx). lia. }
  intros Hin. apply Hmax in Hin. unfold fresh_id in Hin. lia.
Qed.

Lemma find_one_app_new {A} (p : A -> bool) (docs : list A) (d : A) :
  Forall (fun x => p x = false) docs -> p d = true ->
  find_one p (docs ++ [d]) = Some d.
Proof.
  unfold find_one. intros Hall Hd.
  induction Hall as [|x rest Hx _ IH]; simpl; [now rewrite Hd | now rewrite Hx].
Qed.


(** ** The node executor *)


(** An execution that raises has not touched the contacts. *)
Lemma execute_flow_node_raises_inv (env : Env) (contact : Contact.t) (node : Node.t)
    (fd : FlowData.t) (w w' : World) (e : exn) :
  execute_flow_node env contact node fd w = (Raises e, w') ->
  contacts w' = contacts w /\ (e = DeliveryError \/ e = CompletionError).
Proof.
  unfold execute_flow_node, bind, update_contact_state, utcnow.
  destruct (bool_decide (Node.type node = Some "textMessage")).
  - unfold ret at 1.
    destruct (truthy_str _).
    + unfold send_whatsapp_reply, log_message, bind, utcnow.
      destruct (delivery env _ _); simpl; [discriminate|].
      intros [= <- <-]. auto.
    + unfold ret. discriminate.
  - destruct (bool_decide (Node.type node = Some "aiResponse")).
    + unfold get_chat_history, get_openai_response.
      destruct (completion env _ _) as [reply|].
      * unfold ret at 1 2.
        destruct (truthy_str _).
        -- unfold send_whatsapp_reply, log_message, bind, utcnow.
           destruct (delivery env _ _); simpl; [discriminate|].
           intros [= <- <-]. auto.
        -- unfold ret. discriminate.
      * unfold raise. intros [= <- <-]. auto.
    + unfold ret. simpl. discriminate.
Qed.


(** C8. A node whose type is neither [textMessage] nor [aiResponse] is a
    pass-through: its execution completes without a call to the delivery
    service and without a new message-log entry. *)
Theorem execute_flow_node_unknown_type (env : Env) (contact : Contact.t) (node : Node.t)
    (fd : FlowData.t) (w : World) :
  Node.type node <> Some "textMessage" ->
  Node.type node <> Some "aiResponse" ->
  exists w',
    execute_flow_node env contact node fd w = (Returns tt, w')
    /\ delivery_calls w' = delivery_calls w
    /\ message_logs w' = message_logs w.
Proof.
  intros Htext Hai. unfold execute_flow_node, bind.
  rewrite (bool_decide_eq_false_2 _ Htext), (bool_decide_eq_false_2 _ Hai).
  simpl. eexists. split; [reflexivity|]. split; reflexivity.
Qed.

Lemma execute_flow_node_unknown_type_witness :
  exists w',
    execute_flow_node Ex.delivery_down Ex.alice Ex.delay Ex.chain Ex.world = (Returns tt, w')
    /\ delivery_calls w' = delivery_calls Ex.world
    /\ message_logs w' = message_logs Ex.world.
Proof.
  apply (execute_flow_node_unknown_type Ex.delivery_down Ex.alice Ex.delay Ex.chain Ex.world);
    simpl; discriminate.
Defined.



(** C1. What the code does when a collaborator fails: the exception leaves
    [execute_flow_node] before the state update, so the contact keeps its
    position and its [last_active], and no outbound entry is logged.  Here
    the executed node is [n1], whose next node is [n2]. *)
Theorem execute_flow_node_collaborator_failure :
  next_node_id (Node.id Ex.hi) (FlowData.edges Ex.chain) = Some "n2"
  /\ (exists w',
        execute_flow_node Ex.delivery_down Ex.alice Ex.hi Ex.chain Ex.world
        = (Raises DeliveryError, w')
        /\ contacts w' = contacts Ex.world
        /\ find_one (fun c => N.eqb (Contact.id c) (Contact.id Ex.alice)) (contacts w')
           = Some Ex.alice
        /\ message_logs w' = [])
  /\ (exists w',
        execute_flow_node Ex.completion_down Ex.bob Ex.ai Ex.chain Ex.world
        = (Raises CompletionError, w')
        /\ contacts w' = contacts Ex.world
        /\ find_one (fun c => N.eqb (Contact.id c) (Contact.id Ex.bob)) (contacts w')
           = Some Ex.bob)
  /\ (exists w',
        handle_whatsapp_webhook Ex.delivery_down (Ex.hello "+15551234567") Ex.world
        = (Raises DeliveryError, w')
        /\ contacts w' = contacts Ex.world).
Proof.
  split; [reflexivity|]. split; [|split]; eexists; (split; [vm_compute; reflexivity|]);
    repeat split; reflexivity.
Qed.

(** C10. A payload whose [messages] list is empty makes the handler raise
    an index error at once: the store is as it was, so no log entry was
    appended and no contact read or written, and no acknowledgement is
    returned. *)
Theorem handle_whatsapp_webhook_empty_messages (env : Env) (w : World) :
  handle_whatsapp_webhook env (WebhookPayload.mk []) w = (Raises IndexError, w).
Proof. reflexivity. Qed.

(** ** The webhook handler *)

(** A known sender: the stored contact is validated, then handled. *)
Lemma handle_known_sender (env : Env) (payload : WebhookPayload.t) (msg : WebhookMessage.t)
    (rest : list WebhookMessage.t) (w : World) (c : Contact.t) :
  WebhookPayload.messages payload = msg :: rest ->
  find_one (fun c => String.eqb (Contact.phone_number c) (WebhookMessage.from_number msg))
    (contacts w) = Some c ->
  handle_whatsapp_webhook env payload w =
  if negb (String.eqb (Contact.name c) "") && phone_number_pattern (Contact.phone_number c)
  then handle_loaded_contact env msg c w
  else (Raises ValidationError, w).
Proof.
  intros Hmsgs Hfound. unfold handle_whatsapp_webhook. rewrite Hmsgs.
  unfold bind at 1. unfold ret at 1. unfold bind at 1. unfold find_contact at 1.
  rewrite Hfound. unfold bind at 1. unfold ret at 1. unfold bind at 1. unfold ContactInDB.
  destruct (negb (Contact.name c =? "") && phone_number_pattern (Contact.phone_number c));
    reflexivity.
Qed.

(** An unknown sender: a contact is inserted, read back, validated, then
    handled. *)
Lemma handle_unknown_sender (env : Env) (payload : WebhookPayload.t) (msg : WebhookMessage.t)
    (rest : list WebhookMessage.t) (w : World) :
  WebhookPayload.messages payload = msg :: rest ->
  find_one (fun c => String.eqb (Contact.phone_number c) (WebhookMessage.from_number msg))
    (contacts w) = None ->
  let c := new_lead w (WebhookMessage.from_number msg) in
  let w1 := mkWorld (contacts w ++ [c]) (message_logs w) (flows w) (S (clock w))
              (delivery_calls w) in
  handle_whatsapp_webhook env payload w =
  if phone_number_pattern (WebhookMessage.from_number msg)
  then handle_loaded_contact env msg c w1
  else (Raises ValidationError, w1).
Proof.
  intros Hmsgs Hfound. cbv zeta. unfold handle_whatsapp_webhook. rewrite Hmsgs.
  unfold bind at 1. unfold ret at 1. unfold bind at 1. unfold find_contact at 1.
  rewrite Hfound. unfold bind at 1. unfold bind at 1.
  unfold insert_contact, bind, utcnow, with_contacts, find_contact. simpl.
  rewrite (find_one_app_new _ _ (new_lead w (WebhookMessage.from_number msg))).
  - unfold ContactInDB, new_lead. simpl.
    destruct (phone_number_pattern (WebhookMessage.from_number msg)); reflexivity.
  - apply Forall_forall. intros d Hd. apply N.eqb_neq. intros Heq.
    apply (fresh_id_fresh (map Contact.id (contacts w))).
    rewrite <- Heq. apply in_map, list_elem_of_In, Hd.
  - apply N.eqb_refl.
Qed.

(** The loaded contact's message is logged first, whatever follows. *)
Lemma handle_loaded_contact_idle (env : Env) (msg : WebhookMessage.t) (c : Contact.t)
    (w : World) :
  find_one is_active_flow (flows w) = None ->
  handle_loaded_contact env msg c w = (Returns no_active_flow, inbound_logged c msg w).
Proof.
  intros Hidle. unfold handle_loaded_contact, bind, log_message, utcnow, find_flow. simpl.
  now rewrite Hidle.
Qed.

Lemma handle_loaded_contact_active (env : Env) (msg : WebhookMessage.t) (c : Contact.t)
    (w : World) (f : Flow.t) (fd : FlowData.t) :
  find_one is_active_flow (flows w) = Some f ->
  Flow.flow_data f = Some fd ->
  handle_loaded_contact env msg c w =
  match resolve_entry_node (Contact.current_flow_node_id c) fd with
  | None => (Returns no_trigger_node, inbound_logged c msg w)
  | Some node =>
      match execute_flow_node env c node fd (inbound_logged c msg w) with
      | (Returns _, w') => (Returns message_processed, w')
      | (Raises e, w') => (Raises e, w')
      end
  end.
Proof.
  intros Hactive Hfd. unfold handle_loaded_contact, bind, log_message, utcnow, find_flow.
  simpl. rewrite Hactive, Hfd.
  destruct (resolve_entry_node _ fd); reflexivity.
Qed.







(** ** The chat history *)

Lemma insert_desc_perm (x : MessageLog.t) (l : list MessageLog.t) :
  Permutation (insert_desc x l) (x :: l).
Proof.
  induction l as [|y rest IH]; simpl; [reflexivity|].
  destruct (MessageLog.timestamp x <? MessageLog.timestamp y)%nat; [|reflexivity].
  rewrite IH. apply perm_swap.
Qed.

Lemma sort_timestamp_desc_perm (l : list MessageLog.t) :
  Permutation (sort_timestamp_desc l) l.
Proof.
  induction l as [|x rest IH]; simpl; [reflexivity|].
  rewrite insert_desc_perm. now apply perm_skip.
Qed.

Lemma insert_desc_sorted (x : MessageLog.t) (l : list MessageLog.t) :
  StronglySorted newer_first l -> StronglySorted newer_first (insert_desc x l).
Proof.
  induction 1 as [|y rest Hsorted IH Hy]; simpl.
  - repeat constructor.
  - destruct (Nat.ltb_spec (MessageLog.timestamp x) (MessageLog.timestamp y)) as [Hlt|Hge].
    + constructor; [exact IH|].
      eapply Permutation_Forall; [symmetry; apply insert_desc_perm|].
      constructor; [unfold newer_first; lia | exact Hy].
    + constructor; [now constructor|].
      constructor; [exact Hge|].
      eapply Forall_impl; [exact Hy|]. unfold newer_first. intros z Hz. lia.
Qed.

Lemma sort_timestamp_desc_sorted (l : list MessageLog.t) :
  StronglySorted newer_first (sort_timestamp_desc l).
Proof.
  induction l as [|x rest IH]; simpl; [constructor | now apply insert_desc_sorted].
Qed.



Lemma history_loop (cursor : list MessageLog.t) (history : list ChatMessage.t) :
  fold_left (fun history log => history ++ [history_entry log]) cursor history
  = history ++ map history_entry cursor.
Proof.
  revert history. induction cursor as [|log rest IH]; intros history; simpl.
  - now rewrite app_nil_r.
  - rewrite IH. now rewrite <- app_assoc.
Qed.


(** ** The flow endpoints *)

Lemma update_many_ids (p : Flow.t -> bool) (b : option bool) (fs : list Flow.t) :
  map Flow.id (update_many p (Flow.set_is_active b) fs) = map Flow.id fs.
Proof.
  unfold update_many. rewrite map_map. apply map_ext. intros f. now destruct (p f).
Qed.

(** After the [update_many] of both endpoints, only documents the filter
    spared can still be active. *)
Lemma update_many_deactivates (p : Flow.t -> bool) (fs : list Flow.t) (f : Flow.t) :
  In f (update_many (fun f => p f && is_active_flow f) (Flow.set_is_active (Some false)) fs) ->
  is_active_flow f = true ->
  In f fs /\ p f = false.
Proof.
  unfold update_many. rewrite in_map_iff. intros (g & Hg & Hin) Hact.
  destruct (p g) eqn:Hp; simpl in Hg.
  - destruct (is_active_flow g) eqn:Hga; subst f; [discriminate|]. congruence.
  - subst f. auto.
Qed.

(** Documents with distinct ids, the active ones all carrying one id: at
    most one is active. *)
Lemma at_most_one_active_by_id (oid : ObjectId) (fs : list Flow.t) :
  NoDup (map Flow.id fs) ->
  (forall f, In f fs -> is_active_flow f = true -> Flow.id f = oid) ->
  at_most_one_active fs.
Proof.
  unfold at_most_one_active. induction fs as [|x rest IH]; simpl; [lia|].
  intros Hnd Hall. apply NoDup_cons in Hnd as [Hx Hnd].
  destruct (is_active_flow x) eqn:Hax.
  - assert (List.filter is_active_flow rest = []) as ->; [|simpl; lia].
    destruct (List.filter is_active_flow rest) as [|g gs] eqn:Hf; [reflexivity|].
    exfalso. assert (In g (List.filter is_active_flow rest)) as Hg by (rewrite Hf; now left).
    apply filter_In in Hg as [Hin Hag]. apply Hx.
    rewrite (Hall x (or_introl eq_refl) Hax), <- (Hall g (or_intror Hin) Hag).
    apply list_elem_of_In, in_map, Hin.
  - apply IH; [exact Hnd|]. intros f Hin. apply Hall. now right.
Qed.

(** An update that activates nothing does not add an active flow. *)
Lemma update_one_no_activation (p : Flow.t -> bool) (g : Flow.t -> Flow.t) (fs : list Flow.t) :
  (forall f, is_active_flow (g f) = true -> is_active_flow f = true) ->
  List.length (List.filter is_active_flow (update_one p g fs))
  <= List.length (List.filter is_active_flow fs).
Proof.
  intros Hg. induction fs as [|x rest IH]; simpl; [lia|].
  destruct (p x); simpl.
  - destruct (is_active_flow (g x)) eqn:Hgx.
    + rewrite (Hg x Hgx). simpl. lia.
    + destruct (is_active_flow x); simpl; lia.
  - destruct (is_active_flow x); simpl; lia.
Qed.

Lemma update_one_in {A} (p : A -> bool) (g : A -> A) (docs : list A) (d : A) :
  In d (update_one p g docs) -> In d docs \/ exists d0, In d0 docs /\ p d0 = true /\ d = g d0.
Proof.
  induction docs as [|x rest IH]; simpl; [contradiction|].
  destruct (p x) eqn:Hp; simpl.
  - intros [<-|Hin]; [right; exists x; auto | left; auto].
  - intros [<-|Hin]; [left; auto|].
    destruct (IH Hin) as [H|(d0 & H0 & Hp0 & ->)]; [left; auto|].
    right. exists d0. auto.
Qed.

(** What [create_flow] leaves in the flows collection. *)
Lemma create_flow_flows (flow : ChatbotFlowCreate.t) (w : World) :
  flows (snd (create_flow flow w)) =
  (if ChatbotFlowCreate.is_active flow
   then update_many is_active_flow (Flow.set_is_active (Some false)) (flows w)
   else flows w)
  ++ [Flow.mk (fresh_id (map Flow.id (flows w))) (Some (ChatbotFlowCreate.name flow))
        (Some (ChatbotFlowCreate.flow_data flow)) (Some (ChatbotFlowCreate.is_active flow))].
Proof.
  unfold create_flow, bind, update_many_flows, insert_flow, find_flow, with_flows, ret.
  destruct (ChatbotFlowCreate.is_active flow); simpl.
  - rewrite update_many_ids.
    destruct (ChatbotFlowInDB _ _) as [o w'] eqn:Hv.
    unfold ChatbotFlowInDB in Hv.
    destruct (find_one _ _) as [f|] in Hv;
      [destruct (_ && _) in Hv|]; injection Hv as _ <-; reflexivity.
  - destruct (ChatbotFlowInDB _ _) as [o w'] eqn:Hv.
    unfold ChatbotFlowInDB in Hv.
    destruct (find_one _ _) as [f|] in Hv;
      [destruct (_ && _) in Hv|]; injection Hv as _ <-; reflexivity.
Qed.

(** What [update_flow] leaves in the flows collection. *)
Lemma update_flow_flows (id : string) (u : ChatbotFlowUpdate.t) (w : World) :
  flows (snd (update_flow id u w)) =
  match parse_ObjectId id with
  | None => flows w
  | Some oid =>
      if update_data_empty u then flows w
      else
        update_one (fun f => N.eqb (Flow.id f) oid) (set_update_data u)
          (if bool_decide (ChatbotFlowUpdate.is_active u = Some (Some true))
           then update_many (fun f => negb (N.eqb (Flow.id f) oid) && is_active_flow f)
                  (Flow.set_is_active (Some false)) (flows w)
           else flows w)
  end.
Proof.
  unfold update_flow.
  destruct (parse_ObjectId id) as [oid|]; [|reflexivity].
  destruct (update_data_empty u); [reflexivity|].
  unfold bind, update_many_flows, update_one_flow, find_flow, with_flows, ret, raise.
  destruct (bool_decide (ChatbotFlowUpdate.is_active u = Some (Some true))); simpl.
  - destruct (find_one _ _) as [f0|]; simpl; [|reflexivity].
    destruct (ChatbotFlowInDB _ _) as [o w'] eqn:Hv.
    unfold ChatbotFlowInDB in Hv.
    destruct (find_one _ _) as [f|] in Hv;
      [destruct (_ && _) in Hv|]; injection Hv as _ <-; reflexivity.
  - destruct (find_one _ _) as [f0|]; simpl; [|reflexivity].
    destruct (ChatbotFlowInDB _ _) as [o w'] eqn:Hv.
    unfold ChatbotFlowInDB in Hv.
    destruct (find_one _ _) as [f|] in Hv;
      [destruct (_ && _) in Hv|]; injection Hv as _ <-; reflexivity.
Qed.

Lemma update_many_all_inactive (fs : list Flow.t) (f : Flow.t) :
  In f (update_many is_active_flow (Flow.set_is_active (Some false)) fs) ->
  is_active_flow f = false.
Proof.
  unfold update_many. rewrite in_map_iff. intros (g & Hg & _).
  destruct (is_active_flow g) eqn:Hga; subst f; [reflexivity | exact Hga].
Qed.

Lemma set_update_data_no_activation (u : ChatbotFlowUpdate.t) (f : Flow.t) :
  ChatbotFlowUpdate.is_active u <> Some (Some true) ->
  is_active_flow (set_update_data u f) = true -> is_active_flow f = true.
Proof.
  unfold is_active_flow, set_update_data. simpl. intros Hu.
  destruct (ChatbotFlowUpdate.is_active u) as [v|]; simpl; [|auto].
  intros H. apply bool_decide_eq_true in H. congruence.
Qed.

(** C9. [create_flow] and [update_flow] keep the store with at most one
    active flow, and with distinct ids: a request that activates a flow
    first deactivates the others, so that afterwards the only flow that can
    be active is the one created, or the one updated. *)
Theorem flow_endpoints_keep_one_active (w : World) :
  NoDup (map Flow.id (flows w)) ->
  at_most_one_active (flows w) ->
  (forall flow,
     let fs' := flows (snd (create_flow flow w)) in
     NoDup (map Flow.id fs')
     /\ at_most_one_active fs'
     /\ (ChatbotFlowCreate.is_active flow = true ->
         forall f, In f fs' -> is_active_flow f = true ->
                   Flow.id f = fresh_id (map Flow.id (flows w))))
  /\ (forall id flow_update,
        let fs' := flows (snd (update_flow id flow_update w)) in
        NoDup (map Flow.id fs')
        /\ at_most_one_active fs'
        /\ (forall oid, parse_ObjectId id = Some oid ->
            ChatbotFlowUpdate.is_active flow_update = Some (Some true) ->
            forall f, In f fs' -> is_active_flow f = true -> Flow.id f = oid)).
Proof.
  intros Hnd Hone. split.
  - intros flow. cbv zeta. rewrite create_flow_flows.
    set (new := Flow.mk _ _ _ _).
    assert (NoDup (map Flow.id
              ((if ChatbotFlowCreate.is_active flow
                then update_many is_active_flow (Flow.set_is_active (Some false)) (flows w)
                else flows w) ++ [new]))) as Hnd'.
    { rewrite map_app.
      assert (map Flow.id (if ChatbotFlowCreate.is_active flow
                           then update_many is_active_flow (Flow.set_is_active (Some false))
                                  (flows w)
                           else flows w) = map Flow.id (flows w)) as ->.
      { destruct (ChatbotFlowCreate.is_active flow); [apply update_many_ids | reflexivity]. }
      apply NoDup_app. split; [exact Hnd|]. split; [|apply NoDup_singleton].
      intros x Hx Hnew. apply list_elem_of_In in Hx. simpl in Hnew.
      apply list_elem_of_In in Hnew. destruct Hnew as [<-|[]].
      now apply (fresh_id_fresh (map Flow.id (flows w))). }
    split; [exact Hnd'|].
    destruct (ChatbotFlowCreate.is_active flow) eqn:Hact.
    + assert (forall f,
                In f (update_many is_active_flow (Flow.set_is_active (Some false)) (flows w)
                      ++ [new]) ->
                is_active_flow f = true ->
                Flow.id f = fresh_id (map Flow.id (flows w))) as Honly.
      { intros f Hin Hf. apply in_app_or in Hin as [Hin|[<-|[]]]; [|reflexivity].
        apply update_many_all_inactive in Hin. congruence. }
      split; [|intros _; exact Honly].
      now apply (at_most_one_active_by_id (fresh_id (map Flow.id (flows w)))).
    + split; [|discriminate].
      unfold at_most_one_active in *. rewrite List.filter_app, length_app. simpl.
      subst new. lia.
  - intros id u. cbv zeta. rewrite update_flow_flows.
    destruct (parse_ObjectId id) as [oid|]; [|repeat split; [exact Hnd|exact Hone|discriminate]].
    destruct (update_data_empty u) eqn:Hempty.
    { repeat split; [exact Hnd | exact Hone |].
      intros ? _ Hu. unfold update_data_empty in Hempty. rewrite Hu in Hempty.
      rewrite !andb_false_r in Hempty. discriminate. }
    assert (forall fs, map Flow.id (update_one (fun f => N.eqb (Flow.id f) oid)
                                      (set_update_data u) fs) = map Flow.id fs) as Hids.
    { intros fs. now apply update_one_map. }
    destruct (bool_decide (ChatbotFlowUpdate.is_active u = Some (Some true))) eqn:Hu.
    + apply bool_decide_eq_true in Hu.
      set (fs1 := update_many _ _ (flows w)).
      assert (forall f, In f (update_one (fun f => N.eqb (Flow.id f) oid)
                                (set_update_data u) fs1) ->
                        is_active_flow f = true -> Flow.id f = oid) as Honly.
      { intros f Hin Hf. apply update_one_in in Hin as [Hin|(d0 & _ & Hd0 & ->)].
        - apply update_many_deactivates in Hin as [_ Hp]; [|exact Hf].
          apply negb_false_iff in Hp. now apply N.eqb_eq in Hp.
        - simpl. now apply N.eqb_eq in Hd0. }
      assert (NoDup (map Flow.id (update_one (fun f => N.eqb (Flow.id f) oid)
                                    (set_update_data u) fs1))) as Hnd'.
      { rewrite Hids. unfold fs1. now rewrite update_many_ids. }
      split; [exact Hnd'|]. split; [now apply (at_most_one_active_by_id oid)|].
      intros oid' [= <-] _. exact Honly.
    + apply bool_decide_eq_false in Hu.
      split; [now rewrite Hids|]. split; [|intros ? _ Hu'; contradiction].
      unfold at_most_one_active in *.
      etransitivity; [apply update_one_no_activation|exact Hone].
      intros f. now apply set_update_data_no_activation.
Qed.

Lemma flow_endpoints_keep_one_active_witness :
  at_most_one_active
    (flows (snd (create_flow (ChatbotFlowCreate.mk "promo" Ex.chain true) Ex.world)))
  /\ at_most_one_active
       (flows (snd (update_flow "000000000000000000000001"
                      (ChatbotFlowUpdate.mk None None (Some (Some true)))
                      (snd (create_flow (ChatbotFlowCreate.mk "promo" Ex.chain true)
                              Ex.world))))).
Proof.
  assert (NoDup (map Flow.id (flows Ex.world))) as Hnd.
  { apply (bool_decide_unpack (NoDup (map Flow.id (flows Ex.world)))). vm_compute. exact I. }
  assert (at_most_one_active (flows Ex.world)) as Hone.
  { unfold at_most_one_active. simpl. lia. }
  destruct (flow_endpoints_keep_one_active Ex.world Hnd Hone) as [Hcreate _].
  destruct (Hcreate (ChatbotFlowCreate.mk "promo" Ex.chain true)) as (Hnd' & Hone' & _).
  split; [exact Hone'|].
  destruct (flow_endpoints_keep_one_active _ Hnd' Hone') as [_ Hupdate].
  exact (proj1 (proj2 (Hupdate "000000000000000000000001"
                         (ChatbotFlowUpdate.mk None None (Some (Some true)))))).
Defined.

(** * Further properties of the engine *)

(** ** What an execution can touch *)

Lemma truthy_str_text (o : option string) : truthy_str o = true -> default "" o <> "".
Proof.
  destruct o as [s|]; simpl; [|discriminate].
  destruct (String.eqb_spec s ""); [discriminate | auto].
Qed.

Ltac send_stage Htruthy :=
  unfold send_whatsapp_reply, log_message, bind, utcnow;
  destruct (delivery _ _ _); simpl; intros [= <- <-]; simpl;
  [ split; [reflexivity|]; split; [|right; eexists; split; reflexivity];
    eexists; split; [reflexivity|]; right; eexists; split; [reflexivity|];
    simpl; repeat split; try reflexivity; exact (truthy_str_text _ Htruthy)
  | split; [reflexivity|]; split; [|now left];
    exists []; split; [now rewrite app_nil_r | now left] ].

Ltac silent_stage :=
  unfold ret; simpl; intros [= <- <-]; simpl;
  split; [reflexivity|]; split; [|right; eexists; split; reflexivity];
  exists []; split; [now rewrite app_nil_r | now left].

(** Whatever its outcome, an execution leaves the flows alone, appends at
    most one log entry, an outbound one of the contact with a non-empty
    text, and either leaves the contacts alone or, having completed, has
    rewritten the state of the document under the contact's id. *)
Lemma execute_flow_node_effects (env : Env) (contact : Contact.t) (node : Node.t)
    (fd : FlowData.t) (w w' : World) (o : outcome unit) :
  execute_flow_node env contact node fd w = (o, w') ->
  flows w' = flows w
  /\ (exists added,
        message_logs w' = message_logs w ++ added
        /\ (added = []
            \/ exists log, added = [log]
                 /\ MessageLog.direction log = "outbound"
                 /\ MessageLog.contact_id log = Contact.id contact
                 /\ MessageLog.text log <> ""))
  /\ (contacts w' = contacts w
      \/ exists now,
           o = Returns tt
           /\ contacts w' =
              update_one (fun c => N.eqb (Contact.id c) (Contact.id contact))
                (Contact.set_state (next_node_id (Node.id node) (FlowData.edges fd)) now)
                (contacts w)).
Proof.
  unfold execute_flow_node, bind, update_contact_state, utcnow.
  destruct (bool_decide (Node.type node = Some "textMessage")).
  - unfold ret at 1.
    destruct (truthy_str _) eqn:Htruthy; [send_stage Htruthy | silent_stage].
  - destruct (bool_decide (Node.type node = Some "aiResponse")).
    + unfold get_chat_history, get_openai_response.
      destruct (completion env _ _) as [reply|].
      * unfold ret at 1 2.
        destruct (truthy_str _) eqn:Htruthy; [send_stage Htruthy | silent_stage].
      * unfold raise. intros [= <- <-].
        split; [reflexivity|]. split; [|now left].
        exists []. split; [now rewrite app_nil_r | now left].
    + silent_stage.
Qed.

(** ** The shape of a webhook run *)

(** The handler either stops on an empty payload, or settles the sender's
    contact (stored, or newly inserted), and then stops on its validation
    or goes on with it. *)
Lemma handle_whatsapp_webhook_cases (env : Env) (payload : WebhookPayload.t) (w w' : World)
    (o : outcome Response.t) :
  handle_whatsapp_webhook env payload w = (o, w') ->
  (WebhookPayload.messages payload = [] /\ o = Raises IndexError /\ w' = w)
  \/ exists msg rest c w0,
       WebhookPayload.messages payload = msg :: rest
       /\ ((find_one (fun c => String.eqb (Contact.phone_number c)
                                 (WebhookMessage.from_number msg)) (contacts w) = Some c
            /\ w0 = w)
           \/ (find_one (fun c => String.eqb (Contact.phone_number c)
                                    (WebhookMessage.from_number msg)) (contacts w) = None
               /\ c = new_lead w (WebhookMessage.from_number msg)
               /\ w0 = onboarded w (WebhookMessage.from_number msg)))
       /\ ((valid_contact c = false /\ o = Raises ValidationError /\ w' = w0)
           \/ (valid_contact c = true /\ handle_loaded_contact env msg c w0 = (o, w'))).
Proof.
  intros Hrun.
  destruct (WebhookPayload.messages payload) as [|msg rest] eqn:Hmsgs.
  - left. unfold handle_whatsapp_webhook in Hrun. rewrite Hmsgs in Hrun.
    injection Hrun as <- <-. auto.
  - right.
    destruct (find_one (fun c => String.eqb (Contact.phone_number c)
                                   (WebhookMessage.from_number msg)) (contacts w))
      as [c|] eqn:Hfound.
    + rewrite (handle_known_sender env payload msg rest w c Hmsgs Hfound) in Hrun.
      exists msg, rest, c, w. split; [reflexivity|]. split; [now left|].
      unfold valid_contact.
      destruct (negb (Contact.name c =? "") && phone_number_pattern (Contact.phone_number c)).
      * right. auto.
      * left. injection Hrun as <- <-. auto.
    + rewrite (handle_unknown_sender env payload msg rest w Hmsgs Hfound) in Hrun.
      exists msg, rest, (new_lead w (WebhookMessage.from_number msg)),
        (onboarded w (WebhookMessage.from_number msg)).
      split; [reflexivity|]. split; [now right|].
      unfold valid_contact, new_lead. simpl.
      destruct (phone_number_pattern (WebhookMessage.from_number msg)).
      * right. auto.
      * left. injection Hrun as <- <-. auto.
Qed.

(** Once the contact is loaded, its message is logged; then the handler
    answers that nothing is active or that the flow has no entry, stops on a
    flow without data, or hands over to the executor. *)
Lemma handle_loaded_contact_cases (env : Env) (msg : WebhookMessage.t) (c : Contact.t)
    (w w' : World) (o : outcome Response.t) :
  handle_loaded_contact env msg c w = (o, w') ->
  (find_one is_active_flow (flows w) = None
   /\ o = Returns no_active_flow /\ w' = inbound_logged c msg w)
  \/ (exists f, find_one is_active_flow (flows w) = Some f /\ Flow.flow_data f = None
        /\ o = Raises AttributeError /\ w' = inbound_logged c msg w)
  \/ (exists f fd,
        find_one is_active_flow (flows w) = Some f /\ Flow.flow_data f = Some fd
        /\ resolve_entry_node (Contact.current_flow_node_id c) fd = None
        /\ o = Returns no_trigger_node /\ w' = inbound_logged c msg w)
  \/ (exists f fd node o1,
        find_one is_active_flow (flows w) = Some f /\ Flow.flow_data f = Some fd
        /\ resolve_entry_node (Contact.current_flow_node_id c) fd = Some node
        /\ execute_flow_node env c node fd (inbound_logged c msg w) = (o1, w')
        /\ o = match o1 with
               | Returns _ => Returns message_processed
               | Raises e => Raises e
               end).
Proof.
  intros Hrun.
  destruct (find_one is_active_flow (flows w)) as [f|] eqn:Hactive.
  - destruct (Flow.flow_data f) as [fd|] eqn:Hfd.
    + rewrite (handle_loaded_contact_active env msg c w f fd Hactive Hfd) in Hrun.
      right. right.
      destruct (resolve_entry_node (Contact.current_flow_node_id c) fd) as [node|] eqn:Hres.
      * right. destruct (execute_flow_node env c node fd (inbound_logged c msg w))
          as [o1 w1] eqn:Hexec.
        exists f, fd, node, o1.
        destruct o1; injection Hrun as <- <-; auto.
      * left. injection Hrun as <- <-. exists f, fd. auto.
    + right. left. exists f.
      unfold handle_loaded_contact, bind, log_message, utcnow, find_flow in Hrun.
      simpl in Hrun. rewrite Hactive, Hfd in Hrun. injection Hrun as <- <-. auto.
  - left. rewrite (handle_loaded_contact_idle env msg c w Hactive) in Hrun.
    injection Hrun as <- <-. auto.
Qed.

Lemma find_one_none {A} (p : A -> bool) (docs : list A) :
  find_one p docs = None -> Forall (fun d => p d = false) docs.
Proof.
  unfold find_one. intros H. apply Forall_forall. intros d Hd.
  apply (find_none _ _ H). now apply list_elem_of_In.
Qed.

Lemma sender_settled_facts (w : World) (from_number : string) (c : Contact.t) (w0 : World) :
  sender_settled w from_number c w0 ->
  find_one (fun c => String.eqb (Contact.phone_number c) from_number) (contacts w0) = Some c
  /\ Contact.phone_number c = from_number
  /\ Contact.current_flow_node_id c = saved_position w from_number
  /\ flows w0 = flows w
  /\ message_logs w0 = message_logs w
  /\ delivery_calls w0 = delivery_calls w
  /\ (contacts w0 = contacts w \/ contacts w0 = contacts w ++ [c])
  /\ (NoDup (map Contact.id (contacts w)) -> NoDup (map Contact.id (contacts w0)))
  /\ (NoDup (map Contact.phone_number (contacts w)) ->
      NoDup (map Contact.phone_number (contacts w0))).
Proof.
  unfold saved_position.
  intros [[Hfound ->] | (Hfound & -> & ->)].
  - rewrite Hfound. split; [reflexivity|]. split.
    { apply find_some in Hfound as [_ H]. now apply String.eqb_eq in H. }
    repeat split; auto.
  - rewrite Hfound. simpl.
    pose proof (find_one_none _ _ Hfound) as Hnone.
    split.
    { apply find_one_app_new; [exact Hnone | apply String.eqb_refl]. }
    do 5 (split; [reflexivity|]). split; [now right|]. split.
    + intros Hnd. rewrite map_app. apply NoDup_app. split; [exact Hnd|].
      split; [|apply NoDup_singleton].
      intros x Hx Hnew. apply list_elem_of_In in Hx, Hnew. destruct Hnew as [<-|[]].
      now apply (fresh_id_fresh (map Contact.id (contacts w))).
    + intros Hnd. rewrite map_app. apply NoDup_app. split; [exact Hnd|].
      split; [|apply NoDup_singleton].
      intros x Hx Hnew. apply list_elem_of_In in Hx, Hnew. destruct Hnew as [<-|[]].
      apply in_map_iff in Hx as (d & Hd & Hin).
      rewrite Forall_forall in Hnone. specialize (Hnone d (proj2 (list_elem_of_In _ _) Hin)).
      simpl in Hd. apply String.eqb_neq in Hnone. contradiction.
Qed.


Lemma update_one_keeps {A} (p : A -> bool) (f : A -> A) (docs : list A) (d : A) :
  In d docs -> p d = false -> In d (update_one p f docs).
Proof.
  induction docs as [|x rest IH]; simpl; [contradiction|].
  intros [->|Hin] Hp.
  - rewrite Hp. now left.
  - destruct (p x); [now right | right; now apply IH].
Qed.

Lemma contact_ids_inj (docs : list Contact.t) (a b : Contact.t) :
  NoDup (map Contact.id docs) -> In a docs -> In b docs ->
  Contact.id a = Contact.id b -> a = b.
Proof.
  induction docs as [|x rest IH]; simpl; [contradiction|].
  intros Hnd Ha Hb Heq. apply NoDup_cons in Hnd as [Hx Hnd].
  destruct Ha as [->|Ha], Hb as [->|Hb]; [reflexivity | | | now apply IH].
  - exfalso. apply Hx. rewrite Heq. apply list_elem_of_In, in_map, Hb.
  - exfalso. apply Hx. rewrite <- Heq. apply list_elem_of_In, in_map, Ha.
Qed.

(** ** Webhook events *)


(** X2. An event never leaves two contacts under one id or under one phone
    number: a store with distinct ids and distinct numbers stays so, whatever
    the outcome. *)
Theorem webhook_keeps_contacts_distinct (env : Env) (payload : WebhookPayload.t) (w : World) :
  NoDup (map Contact.id (contacts w)) ->
  NoDup (map Contact.phone_number (contacts w)) ->
  NoDup (map Contact.id (contacts (snd (handle_whatsapp_webhook env payload w))))
  /\ NoDup (map Contact.phone_number (contacts (snd (handle_whatsapp_webhook env payload w)))).
Proof.
  intros Hids Hphones.
  destruct (handle_whatsapp_webhook env payload w) as [o w'] eqn:Hrun. simpl.
  apply handle_whatsapp_webhook_cases in Hrun
    as [(_ & -> & ->) | (msg & rest & c & w0 & Hmsgs & Hset & Hrun)]; [auto|].
  apply sender_settled_facts in Hset as (_ & _ & _ & _ & _ & _ & _ & Hids0 & Hphones0).
  specialize (Hids0 Hids). specialize (Hphones0 Hphones).
  destruct Hrun as [(_ & -> & ->) | (_ & Hrun)]; [auto|].
  apply handle_loaded_contact_cases in Hrun
    as [(_ & _ & ->) | [(f & _ & _ & _ & ->) | [(f & fd & _ & _ & _ & _ & ->)
       | (f & fd & node & o1 & _ & _ & _ & Hexec & _)]]]; simpl; auto.
  apply execute_flow_node_effects in Hexec as (_ & _ & [-> | (now & _ & ->)]);
    simpl; [auto|].
  rewrite !update_one_map by reflexivity. auto.
Qed.

Lemma webhook_keeps_contacts_distinct_witness :
  NoDup (map Contact.phone_number
           (contacts (snd (handle_whatsapp_webhook mock_env (Ex.hello "+15550000001") Ex.world)))).
Proof.
  apply (webhook_keeps_contacts_distinct mock_env (Ex.hello "+15550000001") Ex.world).
  - apply (bool_decide_unpack (NoDup (map Contact.id (contacts Ex.world)))).
    vm_compute. exact I.
  - apply (bool_decide_unpack (NoDup (map Contact.phone_number (contacts Ex.world)))).
    vm_compute. exact I.
Defined.

(** X3. An event only ever rewrites the sender's contact: with distinct ids,
    every stored contact under another phone number is still stored, as it
    was, whatever the outcome. *)
Theorem webhook_leaves_other_contacts (env : Env) (payload : WebhookPayload.t)
    (msg : WebhookMessage.t) (rest : list WebhookMessage.t) (w : World) (d : Contact.t) :
  NoDup (map Contact.id (contacts w)) ->
  WebhookPayload.messages payload = msg :: rest ->
  In d (contacts w) ->
  Contact.phone_number d <> WebhookMessage.from_number msg ->
  In d (contacts (snd (handle_whatsapp_webhook env payload w))).
Proof.
  intros Hids Hmsgs Hd Hother.
  destruct (handle_whatsapp_webhook env payload w) as [o w'] eqn:Hrun. simpl.
  apply handle_whatsapp_webhook_cases in Hrun
    as [(Hnil & _) | (msg' & rest' & c & w0 & Hmsgs' & Hset & Hrun)]; [congruence|].
  rewrite Hmsgs in Hmsgs'. injection Hmsgs' as <- <-.
  pose proof (sender_settled_facts _ _ _ _ Hset)
    as (Hfind & Hphone & _ & _ & _ & _ & Hcs & Hids0 & _).
  specialize (Hids0 Hids).
  assert (In d (contacts w0)) as Hd0.
  { destruct Hcs as [-> | ->]; [exact Hd | apply in_or_app; now left]. }
  destruct Hrun as [(_ & _ & ->) | (_ & Hrun)]; [exact Hd0|].
  apply handle_loaded_contact_cases in Hrun
    as [(_ & _ & ->) | [(f & _ & _ & _ & ->) | [(f & fd & _ & _ & _ & _ & ->)
       | (f & fd & node & o1 & _ & _ & _ & Hexec & _)]]]; simpl; auto.
  apply execute_flow_node_effects in Hexec as (_ & _ & [-> | (now & _ & ->)]);
    simpl; [auto|].
  apply update_one_keeps; [exact Hd0|].
  apply N.eqb_neq. intros Heq. apply Hother. rewrite <- Hphone.
  f_equal. apply (contact_ids_inj (contacts w0)); auto.
  apply find_some in Hfind. tauto.
Qed.

Lemma webhook_leaves_other_contacts_witness :
  In Ex.alice
    (contacts (snd (handle_whatsapp_webhook mock_env (Ex.hello "+15557654321") Ex.world))).
Proof.
  apply (webhook_leaves_other_contacts mock_env (Ex.hello "+15557654321")
           (WebhookMessage.mk "+15557654321" "hello") [] Ex.world Ex.alice).
  - apply (bool_decide_unpack (NoDup (map Contact.id (contacts Ex.world)))).
    vm_compute. exact I.
  - reflexivity.
  - simpl. now left.
  - discriminate.
Defined.



(** X5. An event answered with "No trigger node found." has logged the inbound
    message and nothing else, has called no collaborator, and has left the
    sender's position as it was: the active flow had no node to resolve for
    it. *)
Theorem webhook_no_trigger (env : Env) (payload : WebhookPayload.t) (msg : WebhookMessage.t)
    (rest : list WebhookMessage.t) (w w' : World) :
  WebhookPayload.messages payload = msg :: rest ->
  handle_whatsapp_webhook env payload w = (Returns no_trigger_node, w') ->
  (exists f fd,
     find_one is_active_flow (flows w) = Some f /\ Flow.flow_data f = Some fd
     /\ resolve_entry_node (saved_position w (WebhookMessage.from_number msg)) fd = None)
  /\ (exists inbound,
        message_logs w' = message_logs w ++ [inbound] /\ inbound_entry msg inbound)
  /\ delivery_calls w' = delivery_calls w
  /\ saved_position w' (WebhookMessage.from_number msg)
     = saved_position w (WebhookMessage.from_number msg).
Proof.
  intros Hmsgs Hrun.
  apply handle_whatsapp_webhook_cases in Hrun
    as [(Hnil & _) | (msg' & rest' & c & w0 & Hmsgs' & Hset & Hrun)]; [congruence|].
  rewrite Hmsgs in Hmsgs'. injection Hmsgs' as <- <-.
  pose proof (sender_settled_facts _ _ _ _ Hset)
    as (Hfind & _ & Hcur & Hf & Hl & Hd & _).
  destruct Hrun as [(_ & [=] & _) | (_ & Hrun)].
  apply handle_loaded_contact_cases in Hrun
    as [(_ & [=] & _) | [(f & _ & _ & [=] & _) | [(f & fd & Hactive & Hfd & Hres & _ & ->)
       | (f & fd & node & o1 & _ & _ & _ & _ & Ho)]]].
  - split; [exists f, fd; now rewrite <- Hf, <- Hcur|]. simpl.
    split; [eexists; rewrite Hl; split; [reflexivity | repeat split]|].
    split; [exact Hd|].
    unfold saved_position at 1. simpl. now rewrite Hfind.
  - destruct o1; discriminate.
Qed.

Lemma webhook_no_trigger_witness :
  delivery_calls
    (snd (handle_whatsapp_webhook mock_env (Ex.hello "+15551234567") Demo.cycle_world)) = [].
Proof.
  destruct (webhook_no_trigger mock_env (Ex.hello "+15551234567")
              (WebhookMessage.mk "+15551234567" "hello") [] Demo.cycle_world
              (snd (handle_whatsapp_webhook mock_env (Ex.hello "+15551234567")
                      Demo.cycle_world)))
    as (_ & _ & Hcalls & _).
  - reflexivity.
  - vm_compute. reflexivity.
  - exact Hcalls.
Defined.






(** ** Node execution *)







(** ** The chat history, continued *)

(** X11. When one message of the contact is strictly newer than all its others
    and the limit is not zero, that message is the last entry of the
    history. *)
Theorem chat_history_newest_last (contact_id : ObjectId) (limit : nat) (w : World)
    (newest : MessageLog.t) :
  0 < limit ->
  In newest (message_logs w) ->
  MessageLog.contact_id newest = contact_id ->
  (forall log, In log (message_logs w) -> MessageLog.contact_id log = contact_id ->
     log = newest \/ MessageLog.timestamp log < MessageLog.timestamp newest) ->
  exists earlier,
    get_chat_history contact_id limit w = (Returns (earlier ++ [history_entry newest]), w).
Proof.
  intros Hlimit Hin Hid Hnewest.
  unfold get_chat_history. rewrite history_loop. simpl.
  set (mine := List.filter _ (message_logs w)).
  assert (In newest mine) as Hmine.
  { apply filter_In. split; [exact Hin | now apply N.eqb_eq]. }
  pose proof (sort_timestamp_desc_perm mine) as Hperm.
  pose proof (sort_timestamp_desc_sorted mine) as Hsorted.
  assert (In newest (sort_timestamp_desc mine)) as Hsort.
  { eapply Permutation_in; [symmetry; exact Hperm | exact Hmine]. }
  destruct (sort_timestamp_desc mine) as [|x rest]; [contradiction|].
  assert (x = newest) as ->.
  { assert (In x mine) as Hx by (eapply Permutation_in; [exact Hperm | now left]).
    apply filter_In in Hx as [Hx Hxid]. apply N.eqb_eq in Hxid.
    destruct (Hnewest x Hx Hxid) as [-> | Hlt]; [reflexivity|].
    destruct Hsort as [-> | Hrest]; [reflexivity|].
    apply StronglySorted_inv in Hsorted as [_ Hall].
    rewrite Forall_forall in Hall.
    specialize (Hall newest (proj2 (list_elem_of_In _ _) Hrest)).
    unfold newer_first in Hall. lia. }
  destruct limit as [|n]; [lia|]. simpl.
  eexists. reflexivity.
Qed.

Lemma chat_history_newest_last_witness :
  exists earlier,
    get_chat_history 2 10 Ex.after_next_message
    = (Returns (earlier ++ [ChatMessage.mk "assistant" "Hi!"]), Ex.after_next_message).
Proof.
  apply (chat_history_newest_last 2 10 Ex.after_next_message
           (MessageLog.mk 4 2 "+15557654321" "outbound" "Hi!" 104)).
  - lia.
  - vm_compute. tauto.
  - reflexivity.
  - vm_compute. intros log [<- | [<- | [<- | [<- | []]]]] _; (now left) || (right; lia).
Defined.

(** ** The contacts endpoints *)

(** What [create_contact] stores for a request. *)
Lemma create_contact_run (contact : ContactCreate.t) (w : World) :
  find_one (fun c => String.eqb (Contact.phone_number c) (ContactCreate.phone_number contact))
    (contacts w) = None ->
  let c := Contact.mk (fresh_id (map Contact.id (contacts w))) (ContactCreate.name contact)
             (ContactCreate.phone_number contact) (ContactCreate.tags contact) None (clock w) in
  let w' := mkWorld (contacts w ++ [c]) (message_logs w) (flows w) (S (clock w))
              (delivery_calls w) in
  create_contact contact w =
  if valid_contact c then (Returns c, w') else (Raises ValidationError, w').
Proof.
  intros Hfound. cbv zeta.
  unfold create_contact, bind, find_contact. rewrite Hfound.
  unfold insert_contact, bind, utcnow, with_contacts. simpl.
  rewrite (find_one_app_new _ _
             (Contact.mk (fresh_id (map Contact.id (contacts w))) (ContactCreate.name contact)
                (ContactCreate.phone_number contact) (ContactCreate.tags contact) None
                (clock w))).
  - unfold ContactInDB, valid_contact. simpl.
    destruct (negb _ && _); reflexivity.
  - apply Forall_forall. intros d Hd. apply N.eqb_neq. intros Heq.
    apply (fresh_id_fresh (map Contact.id (contacts w))).
    rewrite <- Heq. apply in_map, list_elem_of_In, Hd.
  - apply N.eqb_refl.
Qed.

Lemma create_contact_found (contact : ContactCreate.t) (w : World) (c : Contact.t) :
  find_one (fun c => String.eqb (Contact.phone_number c) (ContactCreate.phone_number contact))
    (contacts w) = Some c ->
  create_contact contact w
  = (Raises (HTTPException 400 "Contact with this phone number already exists."), w).
Proof. intros Hfound. unfold create_contact, bind, find_contact. now rewrite Hfound. Qed.

(** X12. A phone number that a stored contact already has is refused with a
    400, and the store is left as it was. *)
Theorem create_contact_duplicate (contact : ContactCreate.t) (w : World) (c : Contact.t) :
  In c (contacts w) ->
  Contact.phone_number c = ContactCreate.phone_number contact ->
  create_contact contact w
  = (Raises (HTTPException 400 "Contact with this phone number already exists."), w).
Proof.
  intros Hin Hphone.
  destruct (find_one (fun c => String.eqb (Contact.phone_number c)
                                 (ContactCreate.phone_number contact)) (contacts w))
    as [c0|] eqn:Hfound; [now apply (create_contact_found contact w c0)|].
  exfalso. apply find_one_none in Hfound. rewrite Forall_forall in Hfound.
  specialize (Hfound c (proj2 (list_elem_of_In _ _) Hin)). simpl in Hfound.
  apply String.eqb_neq in Hfound. contradiction.
Qed.

Lemma create_contact_duplicate_witness :
  create_contact (ContactCreate.mk "Al" "+15551234567" []) Ex.world
  = (Raises (HTTPException 400 "Contact with this phone number already exists."), Ex.world).
Proof.
  apply (create_contact_duplicate (ContactCreate.mk "Al" "+15551234567" []) Ex.world Ex.alice).
  - simpl. now left.
  - reflexivity.
Defined.

(** X13. A new phone number that matches the contact pattern, under a non-empty
    name: the contact is stored last, under an id no stored contact had,
    with the requested name, number and tags, at no position in any flow;
    it is what the endpoint returns and what a lookup by the number finds. *)
Theorem create_contact_stores (contact : ContactCreate.t) (w : World) :
  (forall c, In c (contacts w) ->
     Contact.phone_number c <> ContactCreate.phone_number contact) ->
  ContactCreate.name contact <> "" ->
  phone_number_pattern (ContactCreate.phone_number contact) = true ->
  exists c w',
    create_contact contact w = (Returns c, w')
    /\ contacts w' = contacts w ++ [c]
    /\ ~ In (Contact.id c) (map Contact.id (contacts w))
    /\ Contact.name c = ContactCreate.name contact
    /\ Contact.phone_number c = ContactCreate.phone_number contact
    /\ Contact.tags c = ContactCreate.tags contact
    /\ Contact.current_flow_node_id c = None
    /\ find_one (fun d => String.eqb (Contact.phone_number d)
                            (ContactCreate.phone_number contact)) (contacts w') = Some c
    /\ message_logs w' = message_logs w /\ flows w' = flows w.
Proof.
  intros Hnew Hname Hphone.
  assert (Forall (fun d => String.eqb (Contact.phone_number d)
                             (ContactCreate.phone_number contact) = false) (contacts w))
    as Hnone.
  { apply Forall_forall. intros d Hd. apply String.eqb_neq, Hnew. now apply list_elem_of_In. }
  assert (find_one (fun c => String.eqb (Contact.phone_number c)
                               (ContactCreate.phone_number contact)) (contacts w) = None)
    as Hfound.
  { unfold find_one. destruct (List.find _ (contacts w)) as [d|] eqn:Hd; [|reflexivity].
    apply find_some in Hd as [Hin Heq]. rewrite Forall_forall in Hnone.
    rewrite (Hnone d (proj2 (list_elem_of_In _ _) Hin)) in Heq. discriminate. }
  rewrite (create_contact_run contact w Hfound).
  unfold valid_contact. simpl.
  rewrite (proj2 (String.eqb_neq _ _) Hname), Hphone. simpl.
  eexists _, _. split; [reflexivity|]. simpl.
  split; [reflexivity|]. split; [apply fresh_id_fresh|].
  do 4 (split; [reflexivity|]).
  split; [|split; reflexivity].
  apply find_one_app_new; [exact Hnone | apply String.eqb_refl].
Qed.

Lemma create_contact_stores_witness :
  exists c w',
    create_contact (ContactCreate.mk "Zoe" "+15550002222" ["vip"]) Ex.world = (Returns c, w')
    /\ contacts w' = contacts Ex.world ++ [c]
    /\ Contact.current_flow_node_id c = None.
Proof.
  destruct (create_contact_stores (ContactCreate.mk "Zoe" "+15550002222" ["vip"]) Ex.world)
    as (c & w' & Hrun & Hcs & _ & _ & _ & _ & Hcur & _).
  - intros c [<- | [<- | []]]; discriminate.
  - discriminate.
  - reflexivity.
  - exists c, w'. auto.
Defined.



(** X15. [create_contact] keeps ids distinct and phone numbers distinct, whatever
    its outcome. *)
Theorem create_contact_keeps_contacts_distinct (contact : ContactCreate.t) (w : World) :
  NoDup (map Contact.id (contacts w)) ->
  NoDup (map Contact.phone_number (contacts w)) ->
  NoDup (map Contact.id (contacts (snd (create_contact contact w))))
  /\ NoDup (map Contact.phone_number (contacts (snd (create_contact contact w)))).
Proof.
  intros Hids Hphones.
  destruct (find_one (fun c => String.eqb (Contact.phone_number c)
                                 (ContactCreate.phone_number contact)) (contacts w))
    as [c|] eqn:Hfound.
  - rewrite (create_contact_found contact w c Hfound). auto.
  - rewrite (create_contact_run contact w Hfound).
    assert (sender_settled w (ContactCreate.phone_number contact)
              (new_lead w (ContactCreate.phone_number contact))
              (onboarded w (ContactCreate.phone_number contact))) as Hset.
    { right. auto. }
    apply sender_settled_facts in Hset as (_ & _ & _ & _ & _ & _ & _ & Hids0 & Hphones0).
    specialize (Hids0 Hids). specialize (Hphones0 Hphones).
    unfold onboarded, new_lead in Hids0, Hphones0. simpl in Hids0, Hphones0.
    rewrite map_app in Hids0, Hphones0.
    destruct (valid_contact _); simpl; rewrite !map_app; simpl; auto.
Qed.

Lemma create_contact_keeps_contacts_distinct_witness :
  NoDup (map Contact.phone_number
           (contacts (snd (create_contact (ContactCreate.mk "Zoe" "0800-ZOE" []) Ex.world)))).
Proof.
  apply (create_contact_keeps_contacts_distinct (ContactCreate.mk "Zoe" "0800-ZOE" [])
           Ex.world).
  - apply (bool_decide_unpack (NoDup (map Contact.id (contacts Ex.world)))).
    vm_compute. exact I.
  - apply (bool_decide_unpack (NoDup (map Contact.phone_number (contacts Ex.world)))).
    vm_compute. exact I.
Defined.





(** ** The flow endpoints, continued *)

(** The whole of an [update_flow] run on a well-formed id with something
    to set. *)
Lemma update_flow_run (id : string) (u : ChatbotFlowUpdate.t) (w : World) (oid : ObjectId) :
  parse_ObjectId id = Some oid ->
  update_data_empty u = false ->
  let fs1 :=
    if bool_decide (ChatbotFlowUpdate.is_active u = Some (Some true))
    then update_many (fun f => negb (N.eqb (Flow.id f) oid) && is_active_flow f)
           (Flow.set_is_active (Some false)) (flows w)
    else flows w in
  let w1 := with_flows (update_one (fun f => N.eqb (Flow.id f) oid) (set_update_data u) fs1) w in
  update_flow id u w =
  match find_one (fun f => N.eqb (Flow.id f) oid) fs1 with
  | None => (Raises (HTTPException 404 "Flow not found"), w1)
  | Some f0 =>
      if valid_flow (set_update_data u f0) then (Returns (set_update_data u f0), w1)
      else (Raises ValidationError, w1)
  end.
Proof.
  intros Hparse Hempty. cbv zeta. unfold update_flow. rewrite Hparse, Hempty.
  unfold bind, update_many_flows, update_one_flow, find_flow, ret, raise.
  destruct (bool_decide (ChatbotFlowUpdate.is_active u = Some (Some true))); simpl.
  - destruct (find_one _ (update_many _ _ (flows w))) as [f0|] eqn:Hf0; simpl; [|reflexivity].
    rewrite (update_one_find_one _ _ _ f0 Hf0).
    + unfold ChatbotFlowInDB, valid_flow. destruct (_ && _); reflexivity.
    + simpl. apply find_some in Hf0. tauto.
  - destruct (find_one _ (flows w)) as [f0|] eqn:Hf0; simpl; [|reflexivity].
    rewrite (update_one_find_one _ _ _ f0 Hf0).
    + unfold ChatbotFlowInDB, valid_flow. destruct (_ && _); reflexivity.
    + simpl. apply find_some in Hf0. tauto.
Qed.

Lemma find_one_update_many_spared {A} (q p : A -> bool) (g : A -> A) (docs : list A) :
  (forall d, p d = true -> q d = false) ->
  (forall d, q (g d) = q d) ->
  find_one q (update_many p g docs)
  = option_map (fun d => if p d then g d else d) (find_one q docs).
Proof.
  intros Hspared Hq. unfold find_one, update_many.
  induction docs as [|x rest IH]; simpl; [reflexivity|].
  destruct (p x) eqn:Hp.
  - rewrite Hq, (Hspared x Hp). exact IH.
  - destruct (q x); [simpl; now rewrite Hp | exact IH].
Qed.

(** The flow an update addresses is found, and spared, by the
    deactivation that precedes an activating update. *)
Lemma find_one_before_update (u : ChatbotFlowUpdate.t) (oid : ObjectId) (fs : list Flow.t) :
  find_one (fun f => N.eqb (Flow.id f) oid)
    (if bool_decide (ChatbotFlowUpdate.is_active u = Some (Some true))
     then update_many (fun f => negb (N.eqb (Flow.id f) oid) && is_active_flow f)
            (Flow.set_is_active (Some false)) fs
     else fs)
  = find_one (fun f => N.eqb (Flow.id f) oid) fs.
Proof.
  destruct (bool_decide _); [|reflexivity].
  rewrite find_one_update_many_spared.
  - destruct (find_one _ fs) as [f|] eqn:Hf; [|reflexivity]. simpl.
    apply find_some in Hf as [_ Hid]. now rewrite Hid.
  - intros d Hd. apply andb_true_iff in Hd as [Hd _]. now apply negb_true_iff in Hd.
  - reflexivity.
Qed.

(** X18. What [update_flow] answers for a stored flow is what [get_flow] answers
    right after it for the same id, be it the updated flow or a validation
    error; and [get_flow] leaves the store as the update left it. *)
Theorem update_flow_then_get_flow (id : string) (u : ChatbotFlowUpdate.t) (w : World)
    (oid : ObjectId) (f : Flow.t) :
  parse_ObjectId id = Some oid ->
  update_data_empty u = false ->
  find_one (fun f => N.eqb (Flow.id f) oid) (flows w) = Some f ->
  get_flow id (snd (update_flow id u w)) = update_flow id u w.
Proof.
  intros Hparse Hempty Hfound.
  rewrite (update_flow_run id u w oid Hparse Hempty). cbv zeta.
  rewrite find_one_before_update, Hfound.
  assert (forall o : outcome Flow.t,
            snd (o, with_flows
                      (update_one (fun f => N.eqb (Flow.id f) oid) (set_update_data u)
                         (if bool_decide (ChatbotFlowUpdate.is_active u = Some (Some true))
                          then update_many
                                 (fun f => negb (N.eqb (Flow.id f) oid) && is_active_flow f)
                                 (Flow.set_is_active (Some false)) (flows w)
                          else flows w)) w)
            = with_flows
                (update_one (fun f => N.eqb (Flow.id f) oid) (set_update_data u)
                   (if bool_decide (ChatbotFlowUpdate.is_active u = Some (Some true))
                    then update_many
                           (fun f => negb (N.eqb (Flow.id f) oid) && is_active_flow f)
                           (Flow.set_is_active (Some false)) (flows w)
                    else flows w)) w) as Hsnd by reflexivity.
  destruct (valid_flow (set_update_data u f)) eqn:Hvalid; rewrite Hsnd;
    unfold get_flow, bind, find_flow; rewrite Hparse; simpl;
    (rewrite (update_one_find_one _ _ _ f);
     [ unfold ChatbotFlowInDB; fold (valid_flow (set_update_data u f)); now rewrite Hvalid
     | now rewrite find_one_before_update
     | simpl; apply find_some in Hfound; tauto ]).
Qed.

Lemma update_flow_then_get_flow_witness :
  get_flow Demo.flow_id
    (snd (update_flow Demo.flow_id (ChatbotFlowUpdate.mk (Some (Some "renamed")) None None)
            Ex.world))
  = update_flow Demo.flow_id (ChatbotFlowUpdate.mk (Some (Some "renamed")) None None) Ex.world.
Proof.
  apply (update_flow_then_get_flow Demo.flow_id _ Ex.world 1
           (Flow.mk 1 (Some "welcome") (Some Ex.chain) (Some true))); reflexivity.
Defined.

Lemma validate_flows_run (cursor acc : list Flow.t) (w : World) :
  validate_flows cursor acc w =
  if forallb valid_flow cursor then (Returns (acc ++ cursor), w)
  else (Raises ValidationError, w).
Proof.
  revert acc. induction cursor as [|doc rest IH]; intros acc; simpl.
  - now rewrite app_nil_r.
  - unfold bind, ChatbotFlowInDB. fold (valid_flow doc).
    destruct (valid_flow doc); simpl; [|reflexivity].
    rewrite IH, <- app_assoc. reflexivity.
Qed.

(** X19. An update that sets a field of a stored flow to null is answered with
    a validation error, but only after the store was written: the flow keeps
    the null, and from then on [get_flow] for it and [get_all_flows] fail
    with the same error. *)
Theorem update_flow_null_is_kept (id : string) (u : ChatbotFlowUpdate.t) (w : World)
    (oid : ObjectId) (f : Flow.t) :
  parse_ObjectId id = Some oid ->
  find_one (fun f => N.eqb (Flow.id f) oid) (flows w) = Some f ->
  (ChatbotFlowUpdate.name u = Some None
   \/ ChatbotFlowUpdate.flow_data u = Some None
   \/ ChatbotFlowUpdate.is_active u = Some None) ->
  exists w',
    update_flow id u w = (Raises ValidationError, w')
    /\ find_one (fun f => N.eqb (Flow.id f) oid) (flows w') = Some (set_update_data u f)
    /\ get_flow id w' = (Raises ValidationError, w')
    /\ get_all_flows w' = (Raises ValidationError, w').
Proof.
  intros Hparse Hfound Hnull.
  assert (update_data_empty u = false) as Hempty.
  { unfold update_data_empty.
    destruct Hnull as [-> | [-> | ->]]; simpl; now rewrite ?andb_false_r. }
  assert (valid_flow (set_update_data u f) = false) as Hinvalid.
  { unfold valid_flow, set_update_data. simpl.
    destruct Hnull as [-> | [-> | ->]]; simpl; now rewrite ?andb_false_r. }
  pose proof (update_flow_run id u w oid Hparse Hempty) as Hrun.
  cbv zeta in Hrun.
  rewrite find_one_before_update, Hfound, Hinvalid in Hrun.
  eexists. split; [exact Hrun|].
  assert (find_one (fun f => N.eqb (Flow.id f) oid)
            (update_one (fun f => N.eqb (Flow.id f) oid) (set_update_data u)
               (if bool_decide (ChatbotFlowUpdate.is_active u = Some (Some true))
                then update_many (fun f => negb (N.eqb (Flow.id f) oid) && is_active_flow f)
                       (Flow.set_is_active (Some false)) (flows w)
                else flows w))
          = Some (set_update_data u f)) as Hstored.
  { apply update_one_find_one; [now rewrite find_one_before_update|].
    simpl. apply find_some in Hfound. tauto. }
  split; [exact Hstored|]. split.
  - unfold get_flow, bind, find_flow. rewrite Hparse. simpl. rewrite Hstored.
    unfold ChatbotFlowInDB. fold (valid_flow (set_update_data u f)). now rewrite Hinvalid.
  - unfold get_all_flows. rewrite validate_flows_run. simpl.
    destruct (forallb valid_flow _) eqn:Hall; [|reflexivity].
    rewrite forallb_forall in Hall. apply find_some in Hstored as [Hin _].
    rewrite (Hall _ Hin) in Hinvalid. discriminate.
Qed.

Lemma update_flow_null_is_kept_witness :
  exists w',
    update_flow Demo.flow_id (ChatbotFlowUpdate.mk None (Some None) None) Ex.world
    = (Raises ValidationError, w')
    /\ get_all_flows w' = (Raises ValidationError, w').
Proof.
  destruct (update_flow_null_is_kept Demo.flow_id (ChatbotFlowUpdate.mk None (Some None) None)
              Ex.world 1 (Flow.mk 1 (Some "welcome") (Some Ex.chain) (Some true)))
    as (w' & Hrun & _ & _ & Hall).
  - reflexivity.
  - reflexivity.
  - right. now left.
  - exists w'. auto.
Defined.




Lemma update_one_unmatched {A} (p : A -> bool) (g : A -> A) (docs : list A) :
  find_one p docs = None -> update_one p g docs = docs.
Proof.
  unfold find_one. induction docs as [|x rest IH]; simpl; [reflexivity|].
  destruct (p x); [discriminate|]. intros H. now rewrite IH.
Qed.

(** X21. An activating update for an id that no stored flow has is answered
    with a 404, but only after the other flows were deactivated: the store
    is left with no active flow at all. *)
Theorem update_flow_activating_missing (id : string) (u : ChatbotFlowUpdate.t) (w : World)
    (oid : ObjectId) :
  parse_ObjectId id = Some oid ->
  find_one (fun f => N.eqb (Flow.id f) oid) (flows w) = None ->
  ChatbotFlowUpdate.is_active u = Some (Some true) ->
  exists w',
    update_flow id u w = (Raises (HTTPException 404 "Flow not found"), w')
    /\ find_one is_active_flow (flows w') = None
    /\ map Flow.id (flows w') = map Flow.id (flows w)
    /\ contacts w' = contacts w /\ message_logs w' = message_logs w.
Proof.
  intros Hparse Hmissing Hactivate.
  assert (update_data_empty u = false) as Hempty.
  { unfold update_data_empty. rewrite Hactivate. simpl. now rewrite andb_false_r. }
  pose proof (update_flow_run id u w oid Hparse Hempty) as Hrun. cbv zeta in Hrun.
  rewrite find_one_before_update, Hmissing in Hrun.
  rewrite update_one_unmatched in Hrun by now rewrite find_one_before_update.
  rewrite (bool_decide_eq_true_2 _ Hactivate) in Hrun.
  eexists. split; [exact Hrun|]. simpl.
  split; [|split; [apply update_many_ids | split; reflexivity]].
  unfold find_one.
  destruct (List.find is_active_flow _) as [g|] eqn:Hg; [|reflexivity].
  apply find_some in Hg as [Hin Hact].
  apply update_many_deactivates in Hin as [Hin Hp]; [|exact Hact].
  apply negb_false_iff, N.eqb_eq in Hp.
  apply find_one_none in Hmissing. rewrite Forall_forall in Hmissing.
  specialize (Hmissing g (proj2 (list_elem_of_In _ _) Hin)). simpl in Hmissing.
  apply N.eqb_neq in Hmissing. contradiction.
Qed.

Lemma update_flow_activating_missing_witness :
  exists w',
    update_flow "0000000000000000000000ff" (ChatbotFlowUpdate.mk None None (Some (Some true)))
      Ex.world
    = (Raises (HTTPException 404 "Flow not found"), w')
    /\ find_one is_active_flow (flows w') = None.
Proof.
  destruct (update_flow_activating_missing "0000000000000000000000ff"
              (ChatbotFlowUpdate.mk None None (Some (Some true))) Ex.world 255)
    as (w' & Hrun & Hnone & _); try reflexivity.
  exists w'. auto.
Defined.

Lemma find_one_app {A} (p : A -> bool) (l1 l2 : list A) :
  find_one p (l1 ++ l2) =
  match find_one p l1 with
  | Some x => Some x
  | None => find_one p l2
  end.
Proof.
  unfold find_one. induction l1 as [|x rest IH]; simpl; [reflexivity|].
  now destruct (p x).
Qed.

(** X22. [create_flow] always succeeds: the flow is stored last, under an id no
    stored flow had, with the requested name, data and activity, and it is
    what the endpoint returns.  Created active, it is the flow the webhook
    finds active afterwards; created inactive, the webhook finds what it
    found before. *)
Theorem create_flow_stores (flow : ChatbotFlowCreate.t) (w : World) :
  let f := Flow.mk (fresh_id (map Flow.id (flows w))) (Some (ChatbotFlowCreate.name flow))
             (Some (ChatbotFlowCreate.flow_data flow))
             (Some (ChatbotFlowCreate.is_active flow)) in
  exists w',
    create_flow flow w = (Returns f, w')
    /\ ~ In (Flow.id f) (map Flow.id (flows w))
    /\ (exists before, flows w' = before ++ [f] /\ map Flow.id before = map Flow.id (flows w))
    /\ find_one is_active_flow (flows w')
       = (if ChatbotFlowCreate.is_active flow then Some f
          else find_one is_active_flow (flows w))
    /\ contacts w' = contacts w /\ message_logs w' = message_logs w.
Proof.
  cbv zeta.
  set (f := Flow.mk _ _ _ _).
  assert (forall before,
            map Flow.id before = map Flow.id (flows w) ->
            find_one (fun d => N.eqb (Flow.id d) (fresh_id (map Flow.id (flows w))))
              (before ++ [f]) = Some f)
    as Hfind.
  { intros before Hids. apply find_one_app_new; [|apply N.eqb_refl].
    apply Forall_forall. intros d Hd. apply N.eqb_neq. intros Heq.
    apply (fresh_id_fresh (map Flow.id (flows w))).
    rewrite <- Heq, <- Hids. apply in_map, list_elem_of_In, Hd. }
  unfold create_flow, bind, update_many_flows, insert_flow, find_flow, with_flows, ret.
  destruct (ChatbotFlowCreate.is_active flow) eqn:Hact; simpl.
  - rewrite update_many_ids. fold f.
    rewrite (Hfind _ (update_many_ids _ _ _)).
    unfold ChatbotFlowInDB. simpl.
    eexists. split; [reflexivity|]. simpl.
    split; [apply fresh_id_fresh|].
    split; [eexists; split; [reflexivity | apply update_many_ids]|].
    split; [|split; reflexivity].
    apply find_one_app_new; [|reflexivity].
    apply Forall_forall. intros d Hd. apply list_elem_of_In in Hd.
    now apply update_many_all_inactive in Hd.
  - fold f. rewrite (Hfind _ eq_refl).
    unfold ChatbotFlowInDB. simpl.
    eexists. split; [reflexivity|]. simpl.
    split; [apply fresh_id_fresh|].
    split; [eexists; split; reflexivity|].
    split; [|split; reflexivity].
    rewrite find_one_app.
    destruct (find_one is_active_flow (flows w)); reflexivity.
Qed.

Lemma create_flow_stores_check :
  exists w',
    create_flow (ChatbotFlowCreate.mk "promo" Demo.cycle true) Ex.world
    = (Returns (Flow.mk 2 (Some "promo") (Some Demo.cycle) (Some true)), w')
    /\ find_one is_active_flow (flows w')
       = Some (Flow.mk 2 (Some "promo") (Some Demo.cycle) (Some true)).
Proof.
  destruct (create_flow_stores (ChatbotFlowCreate.mk "promo" Demo.cycle true) Ex.world)
    as (w' & Hrun & _ & _ & Hactive & _).
  exists w'. split; [exact Hrun | exact Hactive].
Defined.

Lemma delete_one_in {A} (p : A -> bool) (docs : list A) (d : A) :
  In d (delete_one p docs) -> In d docs.
Proof.
  induction docs as [|x rest IH]; simpl; [contradiction|].
  destruct (p x); [now right|]. intros [->|Hin]; [now left | right; now apply IH].
Qed.

Lemma delete_one_keeps {A} (p : A -> bool) (docs : list A) (d : A) :
  In d docs -> p d = false -> In d (delete_one p docs).
Proof.
  induction docs as [|x rest IH]; simpl; [contradiction|].
  intros [->|Hin] Hp.
  - rewrite Hp. now left.
  - destruct (p x); [exact Hin | right; now apply IH].
Qed.


(** With distinct ids, deleting by id leaves no flow of that id. *)
Lemma delete_one_gone (oid : ObjectId) (fs : list Flow.t) :
  NoDup (map Flow.id fs) ->
  Forall (fun d => N.eqb (Flow.id d) oid = false)
    (delete_one (fun d => N.eqb (Flow.id d) oid) fs).
Proof.
  induction fs as [|x rest IH]; simpl; [constructor|].
  intros Hnd. apply NoDup_cons in Hnd as [Hx Hnd].
  destruct (N.eqb_spec (Flow.id x) oid) as [Heq|Hne].
  - apply Forall_forall. intros d Hd. apply N.eqb_neq. intros Hid.
    apply Hx. rewrite Heq, <- Hid. apply list_elem_of_In, in_map, list_elem_of_In, Hd.
  - constructor; [now apply N.eqb_neq | now apply IH].
Qed.



(** Deleting the one active flow leaves none. *)
Lemma delete_one_active (oid : ObjectId) (fs : list Flow.t) (f : Flow.t) :
  at_most_one_active fs ->
  find_one (fun d => N.eqb (Flow.id d) oid) fs = Some f ->
  is_active_flow f = true ->
  find_one is_active_flow (delete_one (fun d => N.eqb (Flow.id d) oid) fs) = None.
Proof.
  unfold at_most_one_active, find_one.
  induction fs as [|x rest IH]; simpl; [discriminate|].
  intros Hone Hfound Hactive.
  destruct (N.eqb (Flow.id x) oid) eqn:Hix.
  - injection Hfound as ->. rewrite Hactive in Hone. simpl in Hone.
    destruct (List.find is_active_flow rest) as [g|] eqn:Hg; [|reflexivity].
    apply find_some in Hg. assert (In g (List.filter is_active_flow rest)) as Hin.
    { apply filter_In. tauto. }
    destruct (List.filter is_active_flow rest); [contradiction | simpl in Hone; lia].
  - simpl. destruct (is_active_flow x) eqn:Hax.
    + exfalso. simpl in Hone. apply find_some in Hfound as [Hin _].
      assert (In f (List.filter is_active_flow rest)) as Hf by (apply filter_In; tauto).
      destruct (List.filter is_active_flow rest); [contradiction | simpl in Hone; lia].
    + now apply IH.
Qed.

(** X23. Deleting a stored flow by its id, in a store with distinct ids: the
    endpoint completes; exactly the flows of other ids remain; [get_flow]
    for the id then answers 404; the contacts and the message log are left
    alone.  If the deleted flow was the active one of a store with at most
    one active flow, the webhook finds no active flow afterwards. *)
Theorem delete_flow_removes (id : string) (w : World) (oid : ObjectId) (f : Flow.t) :
  parse_ObjectId id = Some oid ->
  NoDup (map Flow.id (flows w)) ->
  find_one (fun d => N.eqb (Flow.id d) oid) (flows w) = Some f ->
  exists w',
    delete_flow id w = (Returns tt, w')
    /\ (forall g, In g (flows w') <-> In g (flows w) /\ Flow.id g <> oid)
    /\ get_flow id w' = (Raises (HTTPException 404 "Flow not found"), w')
    /\ contacts w' = contacts w /\ message_logs w' = message_logs w
    /\ (at_most_one_active (flows w) -> is_active_flow f = true ->
        find_one is_active_flow (flows w') = None).
Proof.
  intros Hparse Hnd Hfound.
  unfold delete_flow, bind, delete_one_flow. rewrite Hparse, Hfound. simpl.
  eexists. split; [reflexivity|]. simpl.
  pose proof (delete_one_gone oid (flows w) Hnd) as Hgone.
  split; [|split; [|split; [reflexivity | split; [reflexivity|]]]].
  - intros g. split.
    + intros Hin. split; [now apply delete_one_in in Hin|].
      rewrite Forall_forall in Hgone. apply N.eqb_neq, Hgone. now apply list_elem_of_In.
    + intros [Hin Hne]. apply delete_one_keeps; [exact Hin | now apply N.eqb_neq].
  - unfold get_flow, bind, find_flow. rewrite Hparse. simpl.
    destruct (find_one _ (delete_one _ (flows w))) as [g|] eqn:Hg; [|reflexivity].
    exfalso. apply find_some in Hg as [Hin Hid]. rewrite Forall_forall in Hgone.
    rewrite (Hgone g (proj2 (list_elem_of_In _ _) Hin)) in Hid. discriminate.
  - intros Hone Hactive. now apply (delete_one_active oid (flows w) f).
Qed.

Lemma delete_flow_removes_witness :
  exists w',
    delete_flow Demo.flow_id Ex.world = (Returns tt, w')
    /\ get_flow Demo.flow_id w' = (Raises (HTTPException 404 "Flow not found"), w')
    /\ find_one is_active_flow (flows w') = None.
Proof.
  destruct (delete_flow_removes Demo.flow_id Ex.world 1
              (Flow.mk 1 (Some "welcome") (Some Ex.chain) (Some true)))
    as (w' & Hrun & _ & Hget & _ & _ & Hnone).
  - reflexivity.
  - apply (bool_decide_unpack (NoDup (map Flow.id (flows Ex.world)))). vm_compute. exact I.
  - reflexivity.
  - exists w'. split; [exact Hrun|]. split; [exact Hget|].
    apply Hnone; [unfold at_most_one_active; simpl; lia | reflexivity].
Defined.


(** ** The broadcast task *)

Lemma broadcast_loop_run (env : Env) (message : string) (cursor : list Contact.t)
    (total_sent : nat) (w : World) :
  let reached :=
    List.filter (fun c => delivery env (Contact.phone_number c) message) cursor in
  exists w' added,
    broadcast_loop env message cursor total_sent w
    = (Returns (total_sent + List.length reached), w')
    /\ contacts w' = contacts w /\ flows w' = flows w
    /\ delivery_calls w'
       = delivery_calls w ++ map (fun c => (Contact.phone_number c, message)) cursor
    /\ message_logs w' = message_logs w ++ added
    /\ map MessageLog.contact_id added = map Contact.id reached
    /\ map MessageLog.from_number added = map Contact.phone_number reached
    /\ Forall (broadcast_entry message) added.
Proof.
  cbv zeta. revert total_sent w.
  induction cursor as [|c rest IH]; intros total_sent w; simpl.
  - exists w, []. unfold ret. rewrite Nat.add_0_r, !app_nil_r.
    repeat split; auto.
  - unfold bind at 1. unfold try_except, send_whatsapp_reply, bind, log_message, utcnow, ret.
    destruct (delivery env (Contact.phone_number c) message) eqn:Hdel; simpl.
    + match goal with
      | |- context [broadcast_loop env message rest (S total_sent) ?w1] =>
          destruct (IH (S total_sent) w1)
            as (w' & added & Hrun & Hc & Hf & Hcalls & Hlogs & Hids & Hfrom & Hall)
      end.
      simpl in Hc, Hf, Hcalls, Hlogs.
      eexists w', (_ :: added). rewrite Hrun.
      split; [f_equal; f_equal; lia|]. split; [exact Hc|]. split; [exact Hf|].
      split; [now rewrite Hcalls, <- app_assoc|].
      split; [now rewrite Hlogs, <- app_assoc|].
      simpl. split; [now rewrite Hids|]. split; [now rewrite Hfrom|].
      constructor; [split; reflexivity | exact Hall].
    + match goal with
      | |- context [broadcast_loop env message rest total_sent ?w1] =>
          destruct (IH total_sent w1)
            as (w' & added & Hrun & Hc & Hf & Hcalls & Hlogs & Hids & Hfrom & Hall)
      end.
      simpl in Hc, Hf, Hcalls, Hlogs.
      exists w', added. rewrite Hrun.
      split; [reflexivity|]. split; [exact Hc|]. split; [exact Hf|].
      split; [now rewrite Hcalls, <- app_assoc|]. auto.
Qed.


(** X26. The audience of a broadcast: every stored contact when no tag is
    given, and otherwise the stored contacts that carry at least one of the
    given tags. *)
Theorem run_broadcast_task_audience (env : Env) (message : string) (tags : list string)
    (w : World) :
  exists audience,
    delivery_calls (snd (run_broadcast_task env message tags w))
    = delivery_calls w ++ map (fun c => (Contact.phone_number c, message)) audience
    /\ (forall c,
          In c audience <->
          In c (contacts w)
          /\ (tags = [] \/ exists t, In t (Contact.tags c) /\ In t tags)).
Proof.
  destruct (broadcast_loop_run env message
              (match tags with
               | [] => contacts w
               | _ :: _ => List.filter (tags_in tags) (contacts w)
               end) 0 w) as (w' & added & Hrun & _ & _ & Hcalls & _).
  eexists. unfold run_broadcast_task. rewrite Hrun. simpl. split; [exact Hcalls|].
  intros c. destruct tags as [|t0 tags'].
  - split; [intros Hin; split; [exact Hin | now left] | tauto].
  - rewrite filter_In. unfold tags_in. rewrite existsb_exists.
    split.
    + intros [Hin (t & Ht & Hdec)]. split; [exact Hin|]. right. exists t.
      split; [exact Ht|]. apply bool_decide_eq_true in Hdec. now apply list_elem_of_In.
    + intros [Hin [Hnil | (t & Ht & Htags)]]; [discriminate|].
      split; [exact Hin|]. exists t. split; [exact Ht|].
      apply bool_decide_eq_true. now apply list_elem_of_In.
Qed.

